(** * packages/vite/src/node/logger.ts

    A shallow embedding of Vite's console logger and of its server URL
    reporter, and the properties of both that the specification states.

    JavaScript numbers that hold counts, ranks, rows and ports are integers
    here ([Z]; the arithmetic of the source on them is exact below 2^53).
    Strings are [string]; [undefined] and [null] are [None].  The console,
    the terminal and the clock are explicit: every operation returns the
    list of effects it performed, in order. *)

From Stdlib Require Import ZArith Ascii String DecimalString.
From stdpp Require Import base gmap strings list.

Local Open Scope Z_scope.

(** ** JavaScript strings *)

Module JsString.

(** [String(n)] for an integral number. *)
Definition ofNumber (n : Z) : string := NilZero.string_of_int (Z.to_int n).

Definition newline : string := String (ascii_of_nat 10) EmptyString.

(** A string is truthy unless it is empty. *)
Definition truthy (s : string) : bool := negb (String.eqb s "").

(** [s.repeat(count)] *)
Fixpoint repeat (s : string) (count : nat) : string :=
  match count with
  | O => ""
  | S k => s +:+ repeat s k
  end.

(** [s.includes(search)] *)
Fixpoint includes (s search : string) : bool :=
  String.prefix search s ||
  match s with
  | EmptyString => false
  | String _ rest => includes rest search
  end.

Fixpoint skip (n : nat) (s : string) : string :=
  match n, s with
  | S k, String _ rest => skip k rest
  | _, _ => s
  end.

(** The text before and after the first occurrence of [pat] in [s]. *)
Fixpoint splitFirst (pat s : string) : option (string * string) :=
  if String.prefix pat s then Some ("", skip (String.length pat) s)
  else match s with
       | EmptyString => None
       | String c rest =>
           match splitFirst pat rest with
           | Some (before, after) => Some (String c before, after)
           | None => None
           end
       end.

(** The replacement text of [String.prototype.replace] for a string
    pattern: [$$], [$&], [$`] and [$'] are expanded; there are no
    captures, so every other [$] stands for itself. *)
Fixpoint getSubstitution (matched before after template : string) : string :=
  match template with
  | EmptyString => ""
  | String c rest =>
      match rest with
      | String d rest' =>
          if Ascii.eqb c "$" && Ascii.eqb d "$" then
            "$" +:+ getSubstitution matched before after rest'
          else if Ascii.eqb c "$" && Ascii.eqb d "&" then
            matched +:+ getSubstitution matched before after rest'
          else if Ascii.eqb c "$" && Ascii.eqb d "`" then
            before +:+ getSubstitution matched before after rest'
          else if Ascii.eqb c "$" && Ascii.eqb d "'" then
            after +:+ getSubstitution matched before after rest'
          else String c (getSubstitution matched before after rest)
      | EmptyString => String c ""
      end
  end.

(** [s.replace(pat, replacement)] with a string pattern: the first
    occurrence only. *)
Definition replace (s pat replacement : string) : string :=
  match splitFirst pat s with
  | Some (before, after) =>
      before +:+ getSubstitution pat before after replacement +:+ after
  | None => s
  end.

End JsString.

(** ** picocolors

    The styling functions are an external collaborator: each maps a text to
    a text. *)

Module colors.

Class Formatter := {
  cyan : string → string;
  yellow : string → string;
  red : string → string;
  bold : string → string;
  dim : string → string
}.

(** What picocolors does when colour is not supported: [String]. *)
Definition plain : Formatter :=
  {| cyan := id; yellow := id; red := id; bold := id; dim := id |}.

End colors.

(** ** The Node.js host, as the logger reads it *)

Inductive Family := IPv4 | IPv6.

Record NetworkInterfaceInfo := {
  address : string;
  family : Family
}.

Record Node := {
  (** [process.stdout.isTTY] ([undefined] off a terminal is [false]) *)
  stdout_isTTY : bool;
  (** [process.stdout.rows] *)
  stdout_rows : Z;
  (** [process.env.CI] *)
  env_CI : option string;
  (** [new Date().toLocaleTimeString()] *)
  toLocaleTimeString : string;
  (** [os.networkInterfaces()], in property order *)
  networkInterfaces : list (string * option (list NetworkInterfaceInfo))
}.

(** ** Effects *)

Module console.
Inductive method := log | warn | error.
End console.

Inductive Effect :=
  | Console (method : console.method) (args : list string)
  | cursorTo (x y : Z)
  | clearScreenDown.

Definition isConsole (e : Effect) : bool :=
  match e with
  | Console _ _ => true
  | _ => false
  end.

(** A computation over a state [S] that also writes effects. *)
Definition Act (S A : Type) : Type := S → A * S * list Effect.

#[global] Instance act_ret {S} : MRet (Act S) := λ A a s, (a, s, []).

#[global] Instance act_bind {S} : MBind (Act S) := λ A B k m s,
  let '(a, s1, e1) := m s in
  let '(b, s2, e2) := k a s1 in
  (b, s2, e1 ++ e2).

Definition gets {S A} (f : S → A) : Act S A := λ s, (f s, s, []).
Definition modify {S} (f : S → S) : Act S unit := λ s, (tt, f s, []).
Definition emit {S} (es : list Effect) : Act S unit := λ s, (tt, s, es).

Definition when {S} (c : bool) (m : Act S unit) : Act S unit :=
  if c then m else mret tt.

(** [xs.forEach(f)] *)
Fixpoint forEach {S A} (f : A → Act S unit) (xs : list A) : Act S unit :=
  match xs with
  | [] => mret tt
  | x :: rest => f x;; forEach f rest
  end.

Definition stateOf {S A} (r : A * S * list Effect) : S := snd (fst r).
Definition effectsOf {S A} (r : A * S * list Effect) : list Effect := snd r.

(** ** Types of the logger *)

Module LogType.
(** ['error' | 'warn' | 'info'] *)
Inductive t := error | warn | info.

#[global] Instance eq_dec : EqDecision t.
Proof. solve_decision. Defined.
End LogType.

Abbreviation LogType := LogType.t.

(** [LogType | 'silent'] *)
Inductive LogLevel := Level (type : LogType) | silent.

(** An [Error] object: its identity (the reference that [WeakSet] compares)
    and its message. *)
Record Error := {
  identity : nat;
  message : string
}.

Record LogErrorOptions := {
  options_clear : option bool;
  options_timestamp : option bool;
  options_error : option Error
}.

(** The default [options = {}]. *)
Definition noOptions : LogErrorOptions :=
  {| options_clear := None; options_timestamp := None; options_error := None |}.

(** Truthiness of an optional boolean. *)
Definition isTrue (b : option bool) : bool := default false b.

Definition LogLevels (level : LogLevel) : Z :=
  match level with
  | silent => 0
  | Level LogType.error => 1
  | Level LogType.warn => 2
  | Level LogType.info => 3
  end.

(** ** State *)

(** The variables of the module: one copy for the whole process. *)
Record ModuleVars := {
  lastType : option LogType;
  lastMsg : option string;
  sameCount : Z
}.

(** What one call of [createLogger] owns: the constants and collections of
    its closure and the [hasWarned] property of the object it returns. *)
Record LoggerState := {
  loggedErrors : gset nat;
  prefix : string;
  thresh : Z;
  canClearScreen : bool;
  warnedMessages : gset string;
  hasWarned : bool
}.

(** What a method of a logger can read and write. *)
Record St := {
  vars : ModuleVars;
  self : LoggerState
}.

Definition initialVars : ModuleVars :=
  {| lastType := None; lastMsg := None; sameCount := 0 |}.

Definition set_vars (f : ModuleVars → ModuleVars) (s : St) : St :=
  {| vars := f (vars s); self := self s |}.

Definition set_self (f : LoggerState → LoggerState) (s : St) : St :=
  {| vars := vars s; self := f (self s) |}.

Definition set_lastType (v : option LogType) (m : ModuleVars) : ModuleVars :=
  {| lastType := v; lastMsg := lastMsg m; sameCount := sameCount m |}.

Definition set_lastMsg (v : option string) (m : ModuleVars) : ModuleVars :=
  {| lastType := lastType m; lastMsg := v; sameCount := sameCount m |}.

Definition set_sameCount (v : Z) (m : ModuleVars) : ModuleVars :=
  {| lastType := lastType m; lastMsg := lastMsg m; sameCount := v |}.

Definition set_hasWarned (v : bool) (l : LoggerState) : LoggerState :=
  {| loggedErrors := loggedErrors l; prefix := prefix l; thresh := thresh l;
     canClearScreen := canClearScreen l; warnedMessages := warnedMessages l;
     hasWarned := v |}.

Definition add_loggedErrors (e : Error) (l : LoggerState) : LoggerState :=
  {| loggedErrors := {[identity e]} ∪ loggedErrors l; prefix := prefix l;
     thresh := thresh l; canClearScreen := canClearScreen l;
     warnedMessages := warnedMessages l; hasWarned := hasWarned l |}.

Definition add_warnedMessages (msg : string) (l : LoggerState) : LoggerState :=
  {| loggedErrors := loggedErrors l; prefix := prefix l; thresh := thresh l;
     canClearScreen := canClearScreen l;
     warnedMessages := {[msg]} ∪ warnedMessages l; hasWarned := hasWarned l |}.

(** ** The logger *)

(** The module's [clearScreen()]. *)
Definition clearScreen {S} (node : Node) : Act S unit :=
  let repeatCount := stdout_rows node - 2 in
  let blank :=
    if 0 <? repeatCount
    then JsString.repeat JsString.newline (Z.to_nat repeatCount)
    else "" in
  emit [Console console.log [blank]; cursorTo 0 0; clearScreenDown].

Module Logger.
Section closure.
Context `{colors.Formatter}.

(** [const clear = canClearScreen ? clearScreen : () => {}] *)
Definition clear (node : Node) : Act St unit :=
  can ← gets (canClearScreen ∘ self);
  if can : bool then clearScreen node else mret tt.

(** [const method = type === 'info' ? 'log' : type] *)
Definition method (type : LogType) : console.method :=
  match type with
  | LogType.info => console.log
  | LogType.warn => console.warn
  | LogType.error => console.error
  end.

Definition format (node : Node) (prefix : string) (type : LogType)
    (msg : string) (options : LogErrorOptions) : string :=
  if isTrue (options_timestamp options) then
    let tag :=
      match type with
      | LogType.info => colors.cyan (colors.bold prefix)
      | LogType.warn => colors.yellow (colors.bold prefix)
      | LogType.error => colors.red (colors.bold prefix)
      end in
    colors.dim (toLocaleTimeString node) +:+ " " +:+ tag +:+ " " +:+ msg
  else msg.

Definition output (node : Node) (type : LogType) (msg : string)
    (options : option LogErrorOptions) : Act St unit :=
  let options := default noOptions options in
  thresh ← gets (thresh ∘ self);
  if thresh >=? LogLevels (Level type) then
    prefix ← gets (prefix ∘ self);
    let format := format node prefix type msg options in
    match options_error options with
    | Some e => modify (set_self (add_loggedErrors e))
    | None => mret tt
    end;;
    can ← gets (canClearScreen ∘ self);
    if can : bool then
      last ← gets (λ s, (lastType (vars s), lastMsg (vars s)));
      if bool_decide (Some type = last.1 ∧ Some msg = last.2) then
        modify (set_vars (λ m, set_sameCount (sameCount m + 1) m));;
        clear node;;
        sameCount ← gets (sameCount ∘ vars);
        emit [Console (method type)
                [format;
                 colors.yellow ("(x" +:+ JsString.ofNumber (sameCount + 1) +:+ ")")]]
      else
        modify (set_vars (set_sameCount 0));;
        modify (set_vars (set_lastMsg (Some msg)));;
        modify (set_vars (set_lastType (Some type)));;
        when (isTrue (options_clear options)) (clear node);;
        emit [Console (method type) [format]]
    else
      emit [Console (method type) [format]]
  else mret tt.

Definition info (node : Node) (msg : string) (opts : option LogErrorOptions)
    : Act St unit :=
  output node LogType.info msg opts.

Definition warn (node : Node) (msg : string) (opts : option LogErrorOptions)
    : Act St unit :=
  modify (set_self (set_hasWarned true));;
  output node LogType.warn msg opts.

Definition warnOnce (node : Node) (msg : string)
    (opts : option LogErrorOptions) : Act St unit :=
  warned ← gets (warnedMessages ∘ self);
  if bool_decide (msg ∈ warned) then mret tt
  else
    modify (set_self (set_hasWarned true));;
    output node LogType.warn msg opts;;
    modify (set_self (add_warnedMessages msg)).

Definition error (node : Node) (msg : string) (opts : option LogErrorOptions)
    : Act St unit :=
  modify (set_self (set_hasWarned true));;
  output node LogType.error msg opts.

Definition clearScreen (node : Node) (type : LogType) : Act St unit :=
  thresh ← gets (thresh ∘ self);
  if thresh >=? LogLevels (Level type) then clear node else mret tt.

Definition hasErrorLogged (error : Error) (l : LoggerState) : bool :=
  bool_decide (identity error ∈ loggedErrors l).

End closure.
End Logger.

(** ** Loggers in a process *)

(** A logger object is known by its reference. *)
Definition Logger := nat.

(** The process: the module's variables, and the state of every logger
    that [createLogger] has built, by reference. *)
Record World := {
  module_vars : ModuleVars;
  heap : list LoggerState
}.

Definition initialWorld : World := {| module_vars := initialVars; heap := [] |}.

Record LoggerOptions := {
  options_prefix : option string;
  allowClearScreen : option bool;
  customLogger : option Logger
}.

Definition noLoggerOptions : LoggerOptions :=
  {| options_prefix := None; allowClearScreen := None; customLogger := None |}.

(** [createLogger(level = 'info', options = {})]: a [customLogger] is
    returned as it is, and nothing is built; otherwise a new logger is
    built, with empty collections, and its reference returned. *)
Definition createLogger (node : Node) (level : option LogLevel)
    (options : option LoggerOptions) (w : World) : Logger * World :=
  let level := default (Level LogType.info) level in
  let options := default noLoggerOptions options in
  match customLogger options with
  | Some custom => (custom, w)
  | None =>
      let prefix := default "[vite]" (options_prefix options) in
      let allowClearScreen := default true (allowClearScreen options) in
      let thresh := LogLevels level in
      let canClearScreen :=
        allowClearScreen && stdout_isTTY node &&
        negb (from_option JsString.truthy false (env_CI node)) in
      let logger :=
        {| loggedErrors := ∅; prefix := prefix; thresh := thresh;
           canClearScreen := canClearScreen; warnedMessages := ∅;
           hasWarned := false |} in
      (length (heap w), {| module_vars := module_vars w; heap := heap w ++ [logger] |})
  end.

(** A method of the logger [l] runs on the module's variables and on the
    state that [l] owns; a reference to no logger has no methods. *)
Definition on {A} (l : Logger) (m : Act St A) (w : World)
    : option (A * World * list Effect) :=
  match heap w !! l with
  | Some state =>
      let '(a, s, effects) := m {| vars := module_vars w; self := state |} in
      Some (a, {| module_vars := vars s; heap := <[l := self s]> (heap w) |}, effects)
  | None => None
  end.

Inductive Call :=
  | CallInfo (msg : string) (opts : option LogErrorOptions)
  | CallWarn (msg : string) (opts : option LogErrorOptions)
  | CallWarnOnce (msg : string) (opts : option LogErrorOptions)
  | CallError (msg : string) (opts : option LogErrorOptions)
  | CallClearScreen (type : LogType).

Section calls.
Context `{colors.Formatter}.

Definition call (node : Node) (c : Call) : Act St unit :=
  match c with
  | CallInfo msg opts => Logger.info node msg opts
  | CallWarn msg opts => Logger.warn node msg opts
  | CallWarnOnce msg opts => Logger.warnOnce node msg opts
  | CallError msg opts => Logger.error node msg opts
  | CallClearScreen type => Logger.clearScreen node type
  end.

(** A sequence of method calls, each on some logger and at some state of
    the host. *)
Fixpoint run (calls : list (Node * Logger * Call)) (w : World)
    : option (World * list Effect) :=
  match calls with
  | [] => Some (w, [])
  | (node, l, c) :: rest =>
      match on l (call node c) w with
      | Some (_, w1, e1) =>
          match run rest w1 with
          | Some (w2, e2) => Some (w2, e1 ++ e2)
          | None => None
          end
      | None => None
      end
  end.

End calls.

(** ** Server URLs *)

(** [Hostname] of ./utils. *)
Record Hostname := {
  host : option string;
  name : string
}.

(** Modelled from the spec: the constant [DEFAULT_IPV4_ADDR] of ./constants,
    the IPv4 "any" address literal. *)
Definition DEFAULT_IPV4_ADDR : string := "0.0.0.0".

(** Modelled from the spec: the constant [DEFAULT_IPV6_ADDR] of ./constants,
    the IPv6 "any" address literal. *)
Definition DEFAULT_IPV6_ADDR : string := "::".

Module AddressInfo.
Record t := {
  address : string;
  family : string;
  port : Z
}.
End AddressInfo.

(** What [server.address()] yields: [AddressInfo | string | null]. *)
Inductive ServerAddress :=
  | Bound (info : AddressInfo.t)
  | Pipe (path : string)
  | Null.

Record Server := {
  server_address : ServerAddress
}.

(** The fields of [CommonServerOptions] that the reporter reads; [https] is
    the truthiness of the option. *)
Record CommonServerOptions := {
  options_host : option (string + bool);
  https : bool
}.

(** The fields of [ResolvedConfig] that the reporter reads; [config_logger_info] is
    the method [config.logger.info]. *)
Record ResolvedConfig (S : Type) := {
  config_server : CommonServerOptions;
  config_base : string;
  config_logger_info : string → Act S unit
}.

Arguments config_server {S} _.
Arguments config_base {S} _.
Arguments config_logger_info {S} _ _.

Section urls.
Context `{colors.Formatter}.

(** The test of [.filter] in [printServerUrls]. *)
Definition keeps (hostname : Hostname) (detail : NetworkInterfaceInfo) : bool :=
  if negb (JsString.truthy (address detail)) then false
  else
    (* Only show ipv6 url when host is ipv6 and host isn't :: *)
    match family detail with
    | IPv6 =>
        match host hostname with
        | Some h =>
            JsString.truthy h && JsString.includes h (address detail) &&
            negb (String.eqb h "::")
        | None => false
        end
    | IPv4 =>
        let isIpv4DefaultAddress := JsString.includes (address detail) "127.0.0.1" in
        match host hostname with
        | None => true
        | Some h =>
            String.eqb h DEFAULT_IPV4_ADDR ||
            String.eqb h DEFAULT_IPV6_ADDR ||
            JsString.includes h (address detail) ||
            (isIpv4DefaultAddress && negb (String.eqb h "::1"))
        end
    end.

(** The function of [.map] in [printServerUrls]. *)
Definition line (hostname : Hostname) (protocol : string) (port : Z)
    (base : string) (detail : NetworkInterfaceInfo) : string :=
  let type :=
    if JsString.includes (address detail) "127.0.0.1" ||
       JsString.includes (address detail) "::1"
    then "Local:   "
    else "Network: " in
  let host := JsString.replace (address detail) "127.0.0.1" (name hostname) in
  let host := if JsString.includes host ":" then "[" +:+ host +:+ "]" else host in
  let url :=
    protocol +:+ "://" +:+ host +:+ ":" +:+
    colors.bold (JsString.ofNumber port) +:+ base in
  "  > " +:+ type +:+ " " +:+ colors.cyan url.

(** [Object.values(os.networkInterfaces()).flatMap((nInterface) => nInterface ?? [])] *)
Definition details (node : Node) : list NetworkInterfaceInfo :=
  List.flat_map (λ nInterface, default [] nInterface)
    (List.map snd (networkInterfaces node)).

Definition printServerUrls {S} (node : Node) (hostname : Hostname)
    (protocol : string) (port : Z) (base : string)
    (info : string → Act S unit) : Act S unit :=
  if bool_decide (host hostname = Some "127.0.0.1") then
    let url :=
      protocol +:+ "://" +:+ name hostname +:+ ":" +:+
      colors.bold (JsString.ofNumber port) +:+ base in
    info ("  > Local: " +:+ colors.cyan url);;
    if bool_decide (name hostname ≠ "127.0.0.1") then
      info ("  > Network: " +:+ colors.dim "use `--host` to expose")
    else mret tt
  else
    forEach (λ msg, info msg)
      (List.map (line hostname protocol port base)
         (List.filter (keeps hostname) (details node))).

(** The type guard [(x: any): x is AddressInfo => x?.address]: the
    narrowed value when the guard holds. *)
Definition isAddressInfo (x : ServerAddress) : option AddressInfo.t :=
  match x with
  | Bound info =>
      if JsString.truthy (AddressInfo.address info) then Some info else None
  | Pipe _ => None
  | Null => None
  end.

Section reporter.
(** [resolveHostname] of ./utils, an external collaborator. *)
Variable resolveHostname : option (string + bool) → Hostname.

Definition printCommonServerUrls {S} (node : Node) (server : Server)
    (options : CommonServerOptions) (config : ResolvedConfig S)
    : Act S unit :=
  let address := server_address server in
  match isAddressInfo address with
  | Some address =>
      let hostname := resolveHostname (options_host options) in
      let protocol := if https options then "https" else "http" in
      printServerUrls node hostname protocol (AddressInfo.port address)
        (config_base config) (config_logger_info config)
  | None => mret tt
  end.

Definition printHttpServerUrls {S} (node : Node) (server : Server)
    (config : ResolvedConfig S) : Act S unit :=
  printCommonServerUrls node server (config_server config) config.
End reporter.

End urls.

(** ** Observations *)

(** The effects of one [clearScreen()] of the module. *)
Definition clearing (node : Node) : list Effect :=
  effectsOf (clearScreen node tt).

(** The logger's state once the error of the options, if any, is recorded. *)
Definition noted (opts : option LogErrorOptions) (l : LoggerState) : LoggerState :=
  match options_error (default noOptions opts) with
  | Some e => add_loggedErrors e l
  | None => l
  end.

(** The method of the logger that logs at a type. *)
Definition logCall (type : LogType) (msg : string)
    (opts : option LogErrorOptions) : Call :=
  match type with
  | LogType.info => CallInfo msg opts
  | LogType.warn => CallWarn msg opts
  | LogType.error => CallError msg opts
  end.

(** [warn] and [error] set [hasWarned] before they reach [output]; [info]
    does not. *)
Definition flagged (type : LogType) (s : St) : St :=
  match type with
  | LogType.info => s
  | _ => set_self (set_hasWarned true) s
  end.

(** The same [(type, msg)] logged again and again on one logger, each
    time with options and a host state of its own. *)
Fixpoint repeated `{colors.Formatter} (type : LogType) (msg : string)
    (again : list (Node * option LogErrorOptions)) (s : St) : St :=
  match again with
  | [] => s
  | (node, opts) :: rest =>
      repeated type msg rest (stateOf (call node (logCall type msg opts) s))
  end.

(** A state in which the logger has the constants of [l] and the module
    remembers [(type, msg)] as the last pair, counted [count] times over. *)
Definition standing (type : LogType) (msg : string) (count : Z)
    (l : LoggerState) (s : St) : Prop :=
  thresh (self s) = thresh l ∧ canClearScreen (self s) = canClearScreen l ∧
  prefix (self s) = prefix l ∧
  vars s = {| lastType := Some type; lastMsg := Some msg; sameCount := count |}.

(** An [info] that only records the messages it is called with. *)
Definition record (msg : string) : Act (list string) unit :=
  modify (λ msgs, msgs ++ [msg]).

(** The messages that a reporter hands to [info], in call order. *)
Definition recorded (report : (string → Act (list string) unit) → Act (list string) unit)
    : list string :=
  stateOf (report record []).

Definition isLocalLine (msg : string) : bool := String.prefix "  > Local:" msg.
Definition isNetworkLine (msg : string) : bool := String.prefix "  > Network:" msg.

(** The interface details that pass the filter of [printServerUrls]. *)
Definition shown `{colors.Formatter} (node : Node) (hostname : Hostname)
    : list NetworkInterfaceInfo :=
  List.filter (keeps hostname) (details node).

(** ** Sample inputs *)

Module Sample.

(** An interactive terminal of 24 rows, outside CI. *)
Definition terminal : Node :=
  {| stdout_isTTY := true; stdout_rows := 24; env_CI := None;
     toLocaleTimeString := "10:15:00";
     networkInterfaces :=
       [("lo", Some [{| address := "127.0.0.1"; family := IPv4 |};
                     {| address := "::1"; family := IPv6 |}]);
        ("eth0", Some [{| address := "192.168.1.5"; family := IPv4 |};
                       {| address := "fe80::1"; family := IPv6 |}])] |}.

(** Output that is piped: no terminal. *)
Definition piped : Node :=
  {| stdout_isTTY := false; stdout_rows := 0; env_CI := None;
     toLocaleTimeString := "10:15:00"; networkInterfaces := [] |}.

Definition boom : Error := {| identity := 1; message := "boom" |}.
Definition boom' : Error := {| identity := 2; message := "boom" |}.

Definition withError (e : Error) : LogErrorOptions :=
  {| options_clear := None; options_timestamp := None; options_error := Some e |}.

(** A logger as [createLogger] builds it, at a level, with or without
    the permission to clear the screen. *)
Definition loggerAt (level : LogLevel) (canClear : bool) : LoggerState :=
  {| loggedErrors := ∅; prefix := "[vite]"; thresh := LogLevels level;
     canClearScreen := canClear; warnedMessages := ∅; hasWarned := false |}.

(** The first call in a process. *)
Definition start (level : LogLevel) (canClear : bool) : St :=
  {| vars := initialVars; self := loggerAt level canClear |}.

(** Two loggers built one after the other on the terminal. *)
Definition two : World :=
  (createLogger terminal None None
     (createLogger terminal None None initialWorld).2).2.

End Sample.

(** ** Further observations *)

(** Whether a list of effects erases the screen. *)
Definition clearsScreen (effects : list Effect) : bool :=
  existsb (λ e, match e with clearScreenDown => true | _ => false end) effects.

(** What holds of the module's variables from the start: the count is not
    negative, and the last type and the last message are set together. *)
Definition consistent (m : ModuleVars) : Prop :=
  0 ≤ sameCount m ∧ (lastType m = None ↔ lastMsg m = None).

(** What a logger is built with and keeps. *)
Definition constants (l : LoggerState) : string * Z * bool :=
  (prefix l, thresh l, canClearScreen l).

#[global] Instance Family_eq_dec : EqDecision Family.
Proof. solve_decision. Defined.

(** A text in which [$] does not occur. *)
Fixpoint noDollar (s : string) : bool :=
  match s with
  | EmptyString => true
  | String c rest => negb (Ascii.eqb c "$") && noDollar rest
  end.

(** The host part of a URL: an address with a colon goes in brackets. *)
Definition bracketed (host : string) : string :=
  if JsString.includes host ":" then "[" +:+ host +:+ "]" else host.

(** A [ResolvedConfig] whose logger is a logger of this module, called at
    one state of the host. *)
Definition configOf `{colors.Formatter} (node : Node)
    (options : CommonServerOptions) (base : string) : ResolvedConfig St :=
  {| config_server := options; config_base := base;
     config_logger_info := λ msg, Logger.info node msg None |}.

(** A [resolveHostname] that answers with one hostname, for examples. *)
Definition resolvesTo (hostname : Hostname) : option (string + bool) → Hostname :=
  λ _, hostname.

(** A server bound to a port on every interface, for examples. *)
Definition listening (port : Z) : Server :=
  {| server_address :=
       Bound {| AddressInfo.address := "0.0.0.0"; AddressInfo.family := "IPv4";
                AddressInfo.port := port |} |}.

(** * Properties *)

(** ** The four ways through [output] *)

Section output_cases.
Context `{colors.Formatter}.
Implicit Types (s : St) (node : Node) (type : LogType) (msg : string).
Implicit Types (opts : option LogErrorOptions).

Ltac run_output :=
  cbv [Logger.output Logger.clear clearing clearScreen when noted
       mbind act_bind mret act_ret gets modify emit set_self set_vars
       stateOf effectsOf compose app].

Lemma output_silent node type msg opts s :
  thresh (self s) < LogLevels (Level type) →
  Logger.output node type msg opts s = (tt, s, []).
Proof.
  intros Hlt. run_output.
  destruct (Z.geb_spec (thresh (self s)) (LogLevels (Level type))); [lia | done].
Qed.

Lemma output_plain node type msg opts s :
  LogLevels (Level type) ≤ thresh (self s) →
  canClearScreen (self s) = false →
  Logger.output node type msg opts s =
    (tt, set_self (noted opts) s,
     [Console (Logger.method type)
        [Logger.format node (prefix (self s)) type msg (default noOptions opts)]]).
Proof.
  intros Hle Hcan. run_output.
  destruct (Z.geb_spec (thresh (self s)) (LogLevels (Level type))); [| lia].
  destruct s as [m l]; cbn [vars self] in *.
  destruct (options_error (default noOptions opts)); simpl; rewrite Hcan; done.
Qed.

Lemma output_again node type msg opts s :
  LogLevels (Level type) ≤ thresh (self s) →
  canClearScreen (self s) = true →
  lastType (vars s) = Some type →
  lastMsg (vars s) = Some msg →
  Logger.output node type msg opts s =
    (tt,
     set_vars (set_sameCount (sameCount (vars s) + 1)) (set_self (noted opts) s),
     clearing node ++
     [Console (Logger.method type)
        [Logger.format node (prefix (self s)) type msg (default noOptions opts);
         colors.yellow
           ("(x" +:+ JsString.ofNumber (sameCount (vars s) + 1 + 1) +:+ ")")]]).
Proof.
  intros Hle Hcan Htype Hmsg. run_output.
  destruct (Z.geb_spec (thresh (self s)) (LogLevels (Level type))); [| lia].
  destruct s as [[lt lm sc] l]; cbn [vars self lastType lastMsg sameCount] in *.
  subst lt lm.
  destruct (options_error (default noOptions opts)); cbn; rewrite Hcan;
    rewrite bool_decide_eq_true_2 by done; cbn; rewrite Hcan; done.
Qed.

Lemma output_fresh node type msg opts s :
  LogLevels (Level type) ≤ thresh (self s) →
  canClearScreen (self s) = true →
  (lastType (vars s), lastMsg (vars s)) ≠ (Some type, Some msg) →
  Logger.output node type msg opts s =
    (tt,
     {| vars := {| lastType := Some type; lastMsg := Some msg; sameCount := 0 |};
        self := noted opts (self s) |},
     (if isTrue (options_clear (default noOptions opts)) then clearing node else []) ++
     [Console (Logger.method type)
        [Logger.format node (prefix (self s)) type msg (default noOptions opts)]]).
Proof.
  intros Hle Hcan Hne. run_output.
  destruct (Z.geb_spec (thresh (self s)) (LogLevels (Level type))); [| lia].
  destruct s as [[lt lm sc] l]; cbn [vars self lastType lastMsg sameCount] in *.
  assert (Hno : ¬ (Some type = lt ∧ Some msg = lm)).
  { intros [E1 E2]. apply Hne. by rewrite <- E1, <- E2. }
  destruct (options_error (default noOptions opts)); cbn; rewrite Hcan;
    rewrite (bool_decide_eq_false_2 _ Hno); cbn;
    destruct (isTrue (options_clear (default noOptions opts))); cbn;
    rewrite ?Hcan; done.
Qed.

End output_cases.

(** ** Facts about the methods *)

Section method_facts.
Context `{colors.Formatter}.
Implicit Types (s : St) (node : Node) (type : LogType) (msg : string).
Implicit Types (opts : option LogErrorOptions).

Lemma modify_then {A} (f : St → St) (m : Act St A) s :
  (modify f;; m) s = m (f s).
Proof.
  cbv [mbind act_bind modify]. destruct (m (f s)) as [[a s'] e]. done.
Qed.

Lemma call_log node type msg opts s :
  call node (logCall type msg opts) s =
  Logger.output node type msg opts (flagged type s).
Proof.
  destruct type; cbn [call logCall flagged];
    unfold Logger.info, Logger.warn, Logger.error;
    rewrite ?modify_then; done.
Qed.

Lemma flagged_vars type s : vars (flagged type s) = vars s.
Proof. by destruct type. Qed.

Lemma flagged_thresh type s : thresh (self (flagged type s)) = thresh (self s).
Proof. by destruct type. Qed.

Lemma flagged_canClearScreen type s :
  canClearScreen (self (flagged type s)) = canClearScreen (self s).
Proof. by destruct type. Qed.

Lemma flagged_prefix type s : prefix (self (flagged type s)) = prefix (self s).
Proof. by destruct type. Qed.

Lemma flagged_loggedErrors type s :
  loggedErrors (self (flagged type s)) = loggedErrors (self s).
Proof. by destruct type. Qed.

Lemma noted_thresh opts l : thresh (noted opts l) = thresh l.
Proof. unfold noted. by destruct (options_error _). Qed.

Lemma noted_canClearScreen opts l : canClearScreen (noted opts l) = canClearScreen l.
Proof. unfold noted. by destruct (options_error _). Qed.

Lemma noted_prefix opts l : prefix (noted opts l) = prefix l.
Proof. unfold noted. by destruct (options_error _). Qed.

Lemma clearing_prints node : existsb isConsole (clearing node) = true.
Proof. done. Qed.

End method_facts.

(** ** Gating *)

Section gating.
Context `{colors.Formatter}.

(** C3: a log call at severity [type] writes to the console exactly when
    the rank of [type] is at most the threshold of the logger; above the
    threshold the call has no effect on the console or the terminal at
    all. *)
Theorem prints_iff_accepted (node : Node) (type : LogType) (msg : string)
    (opts : option LogErrorOptions) (s : St) :
  let effects := effectsOf (call node (logCall type msg opts) s) in
  (existsb isConsole effects = true ↔ LogLevels (Level type) ≤ thresh (self s)) ∧
  (thresh (self s) < LogLevels (Level type) → effects = []).
Proof.
  cbv zeta. rewrite call_log.
  pose proof (flagged_thresh type s) as Ht.
  pose proof (flagged_canClearScreen type s) as Hc.
  set (s' := flagged type s) in *.
  destruct (Z.le_gt_cases (LogLevels (Level type)) (thresh (self s))) as [Hle | Hgt].
  - split; [| intros; lia]. split; [done | intros _].
    destruct (canClearScreen (self s')) eqn:Hcan.
    + destruct (decide ((lastType (vars s'), lastMsg (vars s')) = (Some type, Some msg)))
        as [Heq | Hne].
      * injection Heq as Ht' Hm'.
        rewrite output_again by (done || lia). cbn [effectsOf snd].
        rewrite existsb_app, clearing_prints. done.
      * rewrite output_fresh by (done || lia). cbn [effectsOf snd].
        rewrite existsb_app. cbn. apply orb_true_r.
    + rewrite output_plain by (done || lia). done.
  - rewrite output_silent by lia. split; [| done].
    cbn [effectsOf snd existsb]. split; [done | intros; lia].
Qed.

End gating.

(** ** Without the permission to clear the screen *)

Section plain_mode.
Context `{colors.Formatter}.

(** C9: when clearing the screen is not permitted, an accepted log call
    prints the formatted message alone, with no repeat suffix, and leaves
    [lastType], [lastMsg] and [sameCount] as they were. *)
Theorem no_collapsing_without_clearing (node : Node) (type : LogType)
    (msg : string) (opts : option LogErrorOptions) (s : St) :
  canClearScreen (self s) = false →
  LogLevels (Level type) ≤ thresh (self s) →
  let r := call node (logCall type msg opts) s in
  effectsOf r =
    [Console (Logger.method type)
       [Logger.format node (prefix (self s)) type msg (default noOptions opts)]] ∧
  vars (stateOf r) = vars s.
Proof.
  intros Hcan Hle. cbv zeta. rewrite call_log.
  rewrite output_plain
    by (rewrite ?flagged_thresh, ?flagged_canClearScreen; done).
  cbn [effectsOf stateOf fst snd]. rewrite flagged_prefix.
  split; [done |]. by destruct type.
Qed.

End plain_mode.

Lemma no_collapsing_without_clearing_witness :
  let s := {| vars := {| lastType := Some LogType.warn;
                         lastMsg := Some "deprecated";
                         sameCount := 4 |};
              self := Sample.loggerAt (Level LogType.info) false |} in
  let r := call (H := colors.plain) Sample.piped
             (logCall LogType.warn "deprecated" None) s in
  effectsOf r = [Console console.warn ["deprecated"]] ∧ vars (stateOf r) = vars s.
Proof.
  cbv zeta.
  apply (no_collapsing_without_clearing (H := colors.plain) Sample.piped
           LogType.warn "deprecated" None); [reflexivity | by vm_compute].
Defined.

(** ** Reported errors *)

Section reported_errors.
Context `{colors.Formatter}.

Lemma hasErrorLogged_add (e x : Error) (l : LoggerState) :
  Logger.hasErrorLogged x (add_loggedErrors e l) =
  bool_decide (identity x = identity e) || Logger.hasErrorLogged x l.
Proof.
  unfold Logger.hasErrorLogged, add_loggedErrors. cbn [loggedErrors].
  apply eq_true_iff_eq.
  rewrite orb_true_iff, !bool_decide_eq_true. set_solver.
Qed.

(** What a log call does to [loggedErrors]. *)
Lemma call_log_loggedErrors (node : Node) (type : LogType) (msg : string)
    (opts : option LogErrorOptions) (s : St) :
  self (stateOf (call node (logCall type msg opts) s)) =
  if thresh (self s) >=? LogLevels (Level type)
  then noted opts (self (flagged type s))
  else self (flagged type s).
Proof.
  rewrite call_log.
  pose proof (flagged_thresh type s) as Ht.
  pose proof (flagged_canClearScreen type s) as Hc.
  set (s' := flagged type s) in *.
  destruct (Z.geb_spec (thresh (self s)) (LogLevels (Level type))) as [Hle | Hgt].
  - destruct (canClearScreen (self s')) eqn:Hcan.
    + destruct (decide ((lastType (vars s'), lastMsg (vars s')) = (Some type, Some msg)))
        as [Heq | Hne].
      * injection Heq as Ht' Hm'. by rewrite output_again by (done || lia).
      * by rewrite output_fresh by (done || lia).
    + by rewrite output_plain by (done || lia).
  - by rewrite output_silent by lia.
Qed.

(** What a log call prints: when it is accepted, its effects end with
    the console call of its type, whose first argument is the formatted
    message; when the threshold suppresses it, it has no effect. *)
Lemma call_log_printed (node : Node) (type : LogType) (msg : string)
    (opts : option LogErrorOptions) (s : St) :
  if thresh (self s) >=? LogLevels (Level type)
  then ∃ (before : list Effect) (suffix : list string),
         effectsOf (call node (logCall type msg opts) s) =
         before ++
         [Console (Logger.method type)
            (Logger.format node (prefix (self s)) type msg (default noOptions opts)
             :: suffix)]
  else effectsOf (call node (logCall type msg opts) s) = [].
Proof.
  rewrite call_log.
  pose proof (flagged_thresh type s) as Ht.
  pose proof (flagged_canClearScreen type s) as Hc.
  pose proof (flagged_prefix type s) as Hp.
  set (s' := flagged type s) in *.
  destruct (Z.geb_spec (thresh (self s)) (LogLevels (Level type))) as [Hle | Hgt].
  - rewrite <- Hp. destruct (canClearScreen (self s')) eqn:Hcan.
    + destruct (decide ((lastType (vars s'), lastMsg (vars s')) = (Some type, Some msg)))
        as [Heq | Hne].
      * injection Heq as Ht' Hm'. rewrite output_again by (done || lia).
        by eexists _, _.
      * rewrite output_fresh by (done || lia). by eexists _, [].
    + rewrite output_plain by (done || lia). by exists [], [].
  - by rewrite output_silent by lia.
Qed.

(** C2, amended: a call to [info], [warn] or [error] that carries an
    error records the identity of that error exactly when the call is
    accepted (threshold >= rank of the type), and an accepted call is
    always printed: its effects end with the console call of its type for
    the formatted message.  A call that the threshold suppresses prints
    nothing and records nothing, so [hasErrorLogged] answers afterwards
    what it answered before. *)
Theorem error_recorded_iff_accepted (node : Node) (type : LogType)
    (msg : string) (opts : LogErrorOptions) (e : Error) (s : St) :
  options_error opts = Some e →
  let r := call node (logCall type msg (Some opts)) s in
  let after := self (stateOf r) in
  loggedErrors after =
    (if thresh (self s) >=? LogLevels (Level type)
     then {[identity e]} ∪ loggedErrors (self s)
     else loggedErrors (self s)) ∧
  Logger.hasErrorLogged e after =
    (thresh (self s) >=? LogLevels (Level type)) || Logger.hasErrorLogged e (self s) ∧
  existsb isConsole (effectsOf r) = (thresh (self s) >=? LogLevels (Level type)) ∧
  (if thresh (self s) >=? LogLevels (Level type)
   then ∃ (before : list Effect) (suffix : list string),
          effectsOf r =
          before ++
          [Console (Logger.method type)
             (Logger.format node (prefix (self s)) type msg opts :: suffix)]
   else effectsOf r = []).
Proof.
  intros He. cbv zeta.
  pose proof (call_log_printed node type msg (Some opts) s) as Hprinted.
  cbn [from_option id] in Hprinted.
  rewrite call_log_loggedErrors.
  destruct (thresh (self s) >=? LogLevels (Level type)).
  - unfold noted. cbn [from_option id]. rewrite He.
    rewrite hasErrorLogged_add. cbn [add_loggedErrors loggedErrors].
    rewrite flagged_loggedErrors, bool_decide_eq_true_2 by done.
    split; [done |]. split; [done |]. split; [| exact Hprinted].
    destruct Hprinted as (before & suffix & ->).
    rewrite existsb_app. cbn. apply orb_true_r.
  - split; [by rewrite flagged_loggedErrors |].
    split; [unfold Logger.hasErrorLogged; by rewrite flagged_loggedErrors |].
    by rewrite Hprinted.
Qed.

End reported_errors.

Lemma error_recorded_iff_accepted_witness :
  let r := call (H := colors.plain) Sample.terminal
             (logCall LogType.warn "failed" (Some (Sample.withError Sample.boom)))
             (Sample.start (Level LogType.warn) true) in
  let after := self (stateOf r) in
  loggedErrors after = {[identity Sample.boom]} ∪ ∅ ∧
  Logger.hasErrorLogged Sample.boom after = true ∧
  existsb isConsole (effectsOf r) = true ∧
  ∃ (before : list Effect) (suffix : list string),
    effectsOf r = before ++ [Console console.warn ("failed" :: suffix)].
Proof.
  cbv zeta.
  apply (error_recorded_iff_accepted (H := colors.plain) Sample.terminal
           LogType.warn "failed" (Sample.withError Sample.boom) Sample.boom
           (Sample.start (Level LogType.warn) true)).
  reflexivity.
Defined.

(** C2 as stated fails: on a logger at level [silent], [error] with an
    error attached is suppressed and leaves the error unrecorded. *)
Lemma error_unrecorded_when_suppressed :
  let s := Sample.start silent true in
  let r := call (H := colors.plain) Sample.terminal
             (CallError "failed" (Some (Sample.withError Sample.boom))) s in
  effectsOf r = [] ∧ Logger.hasErrorLogged Sample.boom (self (stateOf r)) = false.
Proof. cbv zeta. split; by vm_compute. Qed.

Section identity.
Context `{colors.Formatter}.

Lemma createLogger_new (node : Node) (level : option LogLevel)
    (options : option LoggerOptions) (w : World) :
  customLogger (default noLoggerOptions options) = None →
  ∃ state,
    heap (createLogger node level options w).2
      !! (createLogger node level options w).1 = Some state ∧
    loggedErrors state = ∅ ∧ warnedMessages state = ∅ ∧ hasWarned state = false ∧
    thresh state = LogLevels (default (Level LogType.info) level).
Proof.
  intros Hnone. unfold createLogger. rewrite Hnone. cbn [fst snd heap].
  eexists. split.
  - rewrite lookup_app_r by done. by rewrite Nat.sub_diag.
  - done.
Qed.

(** C6, amended: on a logger whose level is not [silent] (threshold at
    least the rank of [error]), [hasErrorLogged(e)] is false on a logger
    fresh from [createLogger], and after [error(msg, {error: e})] it is
    true for [e] while it stays false for every other error object not
    yet recorded, whatever its message: membership is by identity.  At
    level [silent] (any threshold below the rank of [error]) the call
    prints nothing and records nothing. *)
Theorem hasErrorLogged_by_identity (node : Node) (msg : string)
    (opts : LogErrorOptions) (e e' : Error) (s : St) :
  LogLevels (Level LogType.error) ≤ thresh (self s) →
  options_error opts = Some e →
  identity e' ≠ identity e →
  Logger.hasErrorLogged e' (self s) = false →
  let after := self (stateOf (Logger.error node msg (Some opts) s)) in
  Logger.hasErrorLogged e after = true ∧
  Logger.hasErrorLogged e' after = false ∧
  (∀ (level : option LogLevel) (options : option LoggerOptions) (w : World),
     customLogger (default noLoggerOptions options) = None →
     Logger.hasErrorLogged e <$>
       heap (createLogger node level options w).2
         !! (createLogger node level options w).1 = Some false) ∧
  (∀ quiet : St,
     thresh (self quiet) < LogLevels (Level LogType.error) →
     effectsOf (Logger.error node msg (Some opts) quiet) = [] ∧
     loggedErrors (self (stateOf (Logger.error node msg (Some opts) quiet))) =
       loggedErrors (self quiet)).
Proof.
  intros Hle He Hne Hbefore. cbv zeta.
  assert (Hquiet : ∀ quiet : St,
    thresh (self quiet) < LogLevels (Level LogType.error) →
    effectsOf (Logger.error node msg (Some opts) quiet) = [] ∧
    loggedErrors (self (stateOf (Logger.error node msg (Some opts) quiet))) =
      loggedErrors (self quiet)).
  { intros quiet Hlt.
    change (Logger.error node msg (Some opts) quiet)
      with (call node (logCall LogType.error msg (Some opts)) quiet).
    pose proof (call_log_printed node LogType.error msg (Some opts) quiet) as Hp.
    rewrite call_log_loggedErrors.
    destruct (Z.geb_spec (thresh (self quiet)) (LogLevels (Level LogType.error)));
      [lia |].
    split; [exact Hp | apply flagged_loggedErrors]. }
  change (Logger.error node msg (Some opts) s)
    with (call node (logCall LogType.error msg (Some opts)) s).
  rewrite call_log_loggedErrors.
  destruct (Z.geb_spec (thresh (self s)) (LogLevels (Level LogType.error))); [| lia].
  unfold noted. cbn [from_option id]. rewrite He, !hasErrorLogged_add.
  split; [| split; [| split; [| exact Hquiet]]].
  - by rewrite bool_decide_eq_true_2.
  - rewrite bool_decide_eq_false_2 by done. exact Hbefore.
  - intros level options w Hnone.
    destruct (createLogger_new node level options w Hnone) as (state & -> & Hempty & _).
    cbn. unfold Logger.hasErrorLogged. rewrite Hempty. done.
Qed.

End identity.

Lemma hasErrorLogged_by_identity_witness :
  let s := Sample.start (Level LogType.info) true in
  let after :=
    self (stateOf (Logger.error (H := colors.plain) Sample.terminal "failed"
                     (Some (Sample.withError Sample.boom)) s)) in
  message Sample.boom' = message Sample.boom ∧
  Logger.hasErrorLogged Sample.boom (self s) = false ∧
  Logger.hasErrorLogged Sample.boom after = true ∧
  Logger.hasErrorLogged Sample.boom' after = false.
Proof.
  cbv zeta. split; [reflexivity |]. split; [reflexivity |].
  pose proof (hasErrorLogged_by_identity (H := colors.plain) Sample.terminal
                "failed" (Sample.withError Sample.boom) Sample.boom Sample.boom'
                (Sample.start (Level LogType.info) true)) as W.
  cbv zeta in W.
  destruct W as (Hsame & Hother & _);
    [by vm_compute | reflexivity | by vm_compute | reflexivity |].
  split; assumption.
Defined.

(** C6 as stated fails at level [silent]: [hasErrorLogged(e)] is still
    false immediately after [error(msg, {error: e})]. *)
Lemma hasErrorLogged_false_after_silent_error :
  let created := createLogger Sample.terminal (Some silent) None initialWorld in
  ∃ (w : World) (state : LoggerState),
    on created.1
      (Logger.error (H := colors.plain) Sample.terminal "failed"
         (Some (Sample.withError Sample.boom)))
      created.2 = Some (tt, w, []) ∧
    heap w !! created.1 = Some state ∧
    Logger.hasErrorLogged Sample.boom state = false.
Proof. cbv zeta. do 2 eexists. repeat split; by vm_compute. Qed.

(** ** Collapsing of repeats *)

Section collapsing.
Context `{colors.Formatter}.
Implicit Types (s : St) (node : Node) (type : LogType) (msg : string).
Implicit Types (opts : option LogErrorOptions).

Lemma call_again node type msg opts s :
  LogLevels (Level type) ≤ thresh (self s) →
  canClearScreen (self s) = true →
  lastType (vars s) = Some type →
  lastMsg (vars s) = Some msg →
  call node (logCall type msg opts) s =
    (tt,
     {| vars := set_sameCount (sameCount (vars s) + 1) (vars s);
        self := noted opts (self (flagged type s)) |},
     clearing node ++
     [Console (Logger.method type)
        [Logger.format node (prefix (self s)) type msg (default noOptions opts);
         colors.yellow
           ("(x" +:+ JsString.ofNumber (sameCount (vars s) + 1 + 1) +:+ ")")]]).
Proof.
  intros Hle Hcan Ht Hm. rewrite call_log, output_again;
    rewrite ?flagged_thresh, ?flagged_canClearScreen, ?flagged_vars; try done.
  rewrite flagged_prefix. unfold set_vars, set_self. cbn [vars self].
  by rewrite flagged_vars.
Qed.

Lemma call_fresh node type msg opts s :
  LogLevels (Level type) ≤ thresh (self s) →
  canClearScreen (self s) = true →
  (lastType (vars s), lastMsg (vars s)) ≠ (Some type, Some msg) →
  call node (logCall type msg opts) s =
    (tt,
     {| vars := {| lastType := Some type; lastMsg := Some msg; sameCount := 0 |};
        self := noted opts (self (flagged type s)) |},
     (if isTrue (options_clear (default noOptions opts)) then clearing node else []) ++
     [Console (Logger.method type)
        [Logger.format node (prefix (self s)) type msg (default noOptions opts)]]).
Proof.
  intros Hle Hcan Hne. rewrite call_log, output_fresh;
    rewrite ?flagged_thresh, ?flagged_canClearScreen, ?flagged_vars; try done.
  by rewrite flagged_prefix.
Qed.

Lemma repeated_standing type msg again : ∀ s l count,
  LogLevels (Level type) ≤ thresh l →
  canClearScreen l = true →
  standing type msg count l s →
  standing type msg (count + Z.of_nat (length again)) l (repeated type msg again s).
Proof.
  induction again as [| [node opts] rest IH]; intros s l count Hle Hcan Hs.
  - cbn [repeated length]. by rewrite Z.add_0_r.
  - cbn [repeated length]. rewrite Nat2Z.inj_succ.
    replace (count + Z.succ (Z.of_nat (length rest)))
      with (count + 1 + Z.of_nat (length rest)) by lia.
    apply IH; [done | done |].
    destruct Hs as (Ht & Hc & Hp & Hv).
    rewrite call_again by (rewrite ?Ht, ?Hc, ?Hv; done).
    cbn [stateOf fst snd]. unfold standing. cbn [vars self].
    rewrite noted_thresh, noted_canClearScreen, noted_prefix.
    rewrite flagged_thresh, flagged_canClearScreen, flagged_prefix, Hv.
    done.
Qed.

Lemma call_fresh_standing node type msg opts s :
  LogLevels (Level type) ≤ thresh (self s) →
  canClearScreen (self s) = true →
  (lastType (vars s), lastMsg (vars s)) ≠ (Some type, Some msg) →
  standing type msg 0 (self s) (stateOf (call node (logCall type msg opts) s)).
Proof.
  intros Hle Hcan Hne. rewrite call_fresh by done.
  cbn [stateOf fst snd]. unfold standing. cbn [vars self].
  rewrite noted_thresh, noted_canClearScreen, noted_prefix.
  by rewrite flagged_thresh, flagged_canClearScreen, flagged_prefix.
Qed.

Lemma call_again_standing node type msg opts count l s :
  LogLevels (Level type) ≤ thresh l →
  canClearScreen l = true →
  standing type msg count l s →
  effectsOf (call node (logCall type msg opts) s) =
    clearing node ++
    [Console (Logger.method type)
       [Logger.format node (prefix l) type msg (default noOptions opts);
        colors.yellow ("(x" +:+ JsString.ofNumber (count + 1 + 1) +:+ ")")]] ∧
  standing type msg (count + 1) l (stateOf (call node (logCall type msg opts) s)).
Proof.
  intros Hle Hcan (Ht & Hc & Hp & Hv).
  rewrite call_again by (rewrite ?Ht, ?Hc, ?Hv; done).
  cbn [stateOf effectsOf fst snd]. rewrite Hp, Hv. split; [done |].
  unfold standing. cbn [vars self].
  rewrite noted_thresh, noted_canClearScreen, noted_prefix.
  by rewrite flagged_thresh, flagged_canClearScreen, flagged_prefix.
Qed.

(** C4: with clearing permitted, take accepted calls with one
    [(type, msg)]: the first prints the message without a suffix; after
    it, the n-th repeat (here after [length again] = n - 1 earlier
    repeats) prints the suffix (x<n+1>) and leaves the count at n.  An
    accepted call with another pair [(type', msg')] then puts the count
    back to 0, so the next repeat of that pair prints (x2). *)
Theorem repeat_suffix_counts (node0 node node1 node2 : Node)
    (opts0 opts opts1 opts2 : option LogErrorOptions)
    (again : list (Node * option LogErrorOptions))
    (type type' : LogType) (msg msg' : string) (s : St) :
  canClearScreen (self s) = true →
  LogLevels (Level type) ≤ thresh (self s) →
  LogLevels (Level type') ≤ thresh (self s) →
  (lastType (vars s), lastMsg (vars s)) ≠ (Some type, Some msg) →
  (type', msg') ≠ (type, msg) →
  let first := call node0 (logCall type msg opts0) s in
  let n := Z.of_nat (length again) + 1 in
  let nth := call node (logCall type msg opts)
               (repeated type msg again (stateOf first)) in
  let other := call node1 (logCall type' msg' opts1) (stateOf nth) in
  let next := call node2 (logCall type' msg' opts2) (stateOf other) in
  effectsOf first =
    (if isTrue (options_clear (default noOptions opts0)) then clearing node0 else []) ++
    [Console (Logger.method type)
       [Logger.format node0 (prefix (self s)) type msg (default noOptions opts0)]] ∧
  effectsOf nth =
    clearing node ++
    [Console (Logger.method type)
       [Logger.format node (prefix (self s)) type msg (default noOptions opts);
        colors.yellow ("(x" +:+ JsString.ofNumber (n + 1) +:+ ")")]] ∧
  sameCount (vars (stateOf nth)) = n ∧
  sameCount (vars (stateOf other)) = 0 ∧
  effectsOf next =
    clearing node2 ++
    [Console (Logger.method type')
       [Logger.format node2 (prefix (self s)) type' msg' (default noOptions opts2);
        colors.yellow "(x2)"]].
Proof.
  intros Hcan Hle Hle' Hne Hother. cbv zeta.
  pose proof (call_fresh_standing node0 type msg opts0 s Hle Hcan Hne) as H1.
  pose proof (repeated_standing type msg again _ _ _ Hle Hcan H1) as Hn.
  destruct (call_again_standing node type msg opts _ _ _ Hle Hcan Hn) as [En Hnth].
  set (s_n := stateOf (call node (logCall type msg opts) _)) in *.
  assert (Hfresh :
    standing type' msg' 0 (self s)
      (stateOf (call node1 (logCall type' msg' opts1) s_n)) ∧
    sameCount (vars (stateOf (call node1 (logCall type' msg' opts1) s_n))) = 0).
  { destruct Hnth as (Ht & Hc & Hp & Hv).
    assert (Hne' : (lastType (vars s_n), lastMsg (vars s_n)) ≠ (Some type', Some msg')).
    { rewrite Hv. cbn. intros [= <- <-]. by apply Hother. }
    pose proof (call_fresh_standing node1 type' msg' opts1 s_n) as Hs.
    rewrite Ht, Hc in Hs. specialize (Hs Hle' Hcan Hne').
    destruct Hs as (Ht1 & Hc1 & Hp1 & Hv1).
    split; [| by rewrite Hv1].
    unfold standing. by rewrite Ht1, Hc1, Hp1, Ht, Hc, Hp. }
  destruct Hfresh as [Hst Hzero].
  destruct (call_again_standing node2 type' msg' opts2 _ _ _ Hle' Hcan Hst) as [E2 _].
  split; [by rewrite call_fresh by done |].
  split; [rewrite En; do 4 f_equal; lia |].
  split; [destruct Hnth as (_ & _ & _ & ->); cbn; lia |].
  split; [exact Hzero | exact E2].
Qed.

End collapsing.

Lemma repeat_suffix_counts_witness :
  let s := Sample.start (Level LogType.info) true in
  let first := call (H := colors.plain) Sample.terminal
                 (logCall LogType.info "page reload" None) s in
  let nth := call (H := colors.plain) Sample.terminal
               (logCall LogType.info "page reload" None)
               (repeated (H := colors.plain) LogType.info "page reload"
                  [(Sample.terminal, None); (Sample.terminal, None)]
                  (stateOf first)) in
  let other := call (H := colors.plain) Sample.terminal
                 (logCall LogType.warn "deprecated" None) (stateOf nth) in
  let next := call (H := colors.plain) Sample.terminal
                (logCall LogType.warn "deprecated" None) (stateOf other) in
  effectsOf first = [Console console.log ["page reload"]] ∧
  effectsOf nth =
    clearing Sample.terminal ++ [Console console.log ["page reload"; "(x4)"]] ∧
  sameCount (vars (stateOf nth)) = 3 ∧
  sameCount (vars (stateOf other)) = 0 ∧
  effectsOf next =
    clearing Sample.terminal ++ [Console console.warn ["deprecated"; "(x2)"]].
Proof.
  cbv zeta.
  apply (repeat_suffix_counts (H := colors.plain)
           Sample.terminal Sample.terminal Sample.terminal Sample.terminal
           None None None None
           [(Sample.terminal, None); (Sample.terminal, None)]
           LogType.info LogType.warn "page reload" "deprecated"
           (Sample.start (Level LogType.info) true));
    [reflexivity | by vm_compute | by vm_compute | by vm_compute | by vm_compute].
Defined.

(** ** Loggers side by side *)

Section process.
Context `{colors.Formatter}.
Implicit Types (w : World) (l : Logger) (node : Node) (s : St).

Lemma on_lookup {A} l (m : Act St A) w state :
  heap w !! l = Some state →
  on l m w =
    Some (fst (fst (m {| vars := module_vars w; self := state |})),
          {| module_vars := vars (stateOf (m {| vars := module_vars w; self := state |}));
             heap := <[l := self (stateOf (m {| vars := module_vars w; self := state |}))]>
                       (heap w) |},
          effectsOf (m {| vars := module_vars w; self := state |})).
Proof.
  intros Hl. unfold on. rewrite Hl.
  by destruct (m _) as [[a s] e].
Qed.

Lemma on_unchanged l (m : Act St unit) w state :
  heap w !! l = Some state →
  m {| vars := module_vars w; self := state |} =
    (tt, {| vars := module_vars w; self := state |}, []) →
  on l m w = Some (tt, w, []).
Proof.
  intros Hl Hm. rewrite (on_lookup _ _ _ _ Hl), Hm.
  cbn [stateOf effectsOf fst snd vars self].
  rewrite list_insert_id by done. by destruct w.
Qed.

(** A call on one logger leaves what every other logger owns. *)
Lemma on_other {A} l l' (m : Act St A) w a w' effects :
  l ≠ l' →
  on l m w = Some (a, w', effects) →
  heap w' !! l' = heap w !! l'.
Proof.
  intros Hne. unfold on. destruct (heap w !! l) as [state |]; [| done].
  destruct (m _) as [[a' s] e]. intros [= _ <- _]. cbn [heap].
  by apply list_lookup_insert_ne.
Qed.

Lemma on_same {A} l (m : Act St A) w a w' effects state :
  heap w !! l = Some state →
  on l m w = Some (a, w', effects) →
  heap w' !! l = Some (self (stateOf (m {| vars := module_vars w; self := state |}))).
Proof.
  intros Hl. rewrite (on_lookup _ _ _ _ Hl). intros [= _ <- _]. cbn [heap].
  apply list_lookup_insert_eq. by eapply lookup_lt_Some.
Qed.

Lemma noted_warnedMessages opts (state : LoggerState) :
  warnedMessages (noted opts state) = warnedMessages state.
Proof. unfold noted. by destruct (options_error _). Qed.

Lemma flagged_warnedMessages type s :
  warnedMessages (self (flagged type s)) = warnedMessages (self s).
Proof. by destruct type. Qed.

Lemma call_log_warnedMessages node type msg opts s :
  warnedMessages (self (stateOf (call node (logCall type msg opts) s))) =
  warnedMessages (self s).
Proof.
  rewrite call_log_loggedErrors.
  destruct (_ >=? _); by rewrite ?noted_warnedMessages, flagged_warnedMessages.
Qed.

Lemma warnOnce_seen node msg opts s :
  msg ∈ warnedMessages (self s) →
  Logger.warnOnce node msg opts s = (tt, s, []).
Proof.
  intros Hin. cbv [Logger.warnOnce mbind act_bind gets compose].
  by rewrite bool_decide_eq_true_2.
Qed.

Lemma warnOnce_first node msg opts s :
  msg ∉ warnedMessages (self s) →
  Logger.warnOnce node msg opts s =
  (Logger.warn node msg opts;; modify (set_self (add_warnedMessages msg))) s.
Proof.
  intros Hout. cbv [Logger.warnOnce Logger.warn mbind act_bind gets modify compose].
  rewrite bool_decide_eq_false_2 by done.
  destruct (Logger.output _ _ _ _ _) as [[[] s'] e]. cbn [app].
  by rewrite !app_nil_r.
Qed.

Lemma warn_warnedMessages node msg opts s :
  warnedMessages (self (stateOf (Logger.warn node msg opts s))) =
  warnedMessages (self s).
Proof.
  apply (call_log_warnedMessages node LogType.warn).
Qed.

Lemma then_modify_state (m : Act St unit) (f : St → St) s :
  stateOf ((m;; modify f) s) = f (stateOf (m s)).
Proof. cbv [mbind act_bind modify]. by destruct (m s) as [[[] s'] e]. Qed.

Lemma warnOnce_warned node msg opts s :
  msg ∈ warnedMessages (self (stateOf (Logger.warnOnce node msg opts s))).
Proof.
  destruct (decide (msg ∈ warnedMessages (self s))) as [Hin | Hout].
  - by rewrite warnOnce_seen.
  - rewrite warnOnce_first, then_modify_state by done.
    cbn. set_solver.
Qed.

(** [warnedMessages] never loses a message. *)
Lemma call_warnedMessages node (c : Call) s :
  warnedMessages (self s) ⊆ warnedMessages (self (stateOf (call node c s))).
Proof.
  destruct c as [msg opts | msg opts | msg opts | msg opts | type].
  - by rewrite (call_log_warnedMessages node LogType.info).
  - by rewrite (call_log_warnedMessages node LogType.warn).
  - cbn [call].
    destruct (decide (msg ∈ warnedMessages (self s))) as [Hin | Hout].
    + by rewrite warnOnce_seen.
    + rewrite warnOnce_first, then_modify_state by done.
      cbn [set_self self add_warnedMessages warnedMessages].
      rewrite warn_warnedMessages. set_solver.
  - by rewrite (call_log_warnedMessages node LogType.error).
  - cbv [call Logger.clearScreen Logger.clear clearScreen mbind act_bind gets
         emit mret act_ret compose].
    destruct (_ >=? _); [destruct (canClearScreen _) |]; done.
Qed.

Lemma run_warnedMessages (calls : list (Node * Logger * Call)) : ∀ w w' effects l state msg,
  run calls w = Some (w', effects) →
  heap w !! l = Some state →
  msg ∈ warnedMessages state →
  ∃ state', heap w' !! l = Some state' ∧ msg ∈ warnedMessages state'.
Proof.
  induction calls as [| [[node l0] c] rest IH]; intros w w' effects l state msg Hrun Hl Hin.
  - injection Hrun as <- _. eauto.
  - cbn [run] in Hrun.
    destruct (on l0 (call node c) w) as [[[[] w1] e1] |] eqn:Hon; [| done].
    destruct (run rest w1) as [[w2 e2] |] eqn:Hrest; [| done].
    injection Hrun as <- _.
    destruct (decide (l0 = l)) as [-> | Hne].
    + eapply IH; [exact Hrest | by eapply on_same |].
      by apply call_warnedMessages.
    + eapply IH; [exact Hrest | | exact Hin].
      by rewrite (on_other _ _ _ _ _ _ _ Hne Hon).
Qed.

(** C5: the first [warnOnce(msg)] on a logger is [warn(msg)] followed by
    adding [msg] to [warnedMessages]; after a [warnOnce(msg)], and
    whatever calls on whatever loggers come in between, a further
    [warnOnce(msg)] on that logger prints nothing and leaves the whole
    process, [hasWarned] included, as it was. *)
Theorem warnOnce_once (node node' : Node) (l : Logger) (msg : string)
    (opts opts' : option LogErrorOptions) (w : World) (state : LoggerState) :
  heap w !! l = Some state →
  (msg ∉ warnedMessages state →
     on l (Logger.warnOnce node msg opts) w =
     on l (Logger.warn node msg opts;;
           modify (set_self (add_warnedMessages msg))) w) ∧
  ∃ (w1 : World) (effects1 : list Effect),
    on l (Logger.warnOnce node msg opts) w = Some (tt, w1, effects1) ∧
    ∀ (between : list (Node * Logger * Call)) (w2 : World) (effects2 : list Effect),
      run between w1 = Some (w2, effects2) →
      on l (Logger.warnOnce node' msg opts') w2 = Some (tt, w2, []).
Proof.
  intros Hl. split.
  - intros Hout. unfold on. rewrite Hl. by rewrite warnOnce_first.
  - destruct (on l (Logger.warnOnce node msg opts) w) as [[[[] w1] e1] |] eqn:Hon;
      [| by rewrite (on_lookup _ _ _ _ Hl) in Hon].
    exists w1, e1. split; [done |].
    intros between w2 effects2 Hrun.
    pose proof (on_same _ _ _ _ _ _ _ Hl Hon) as Hl1.
    destruct (run_warnedMessages between w1 w2 effects2 l _ msg Hrun Hl1
                (warnOnce_warned _ _ _ _)) as (state2 & Hl2 & Hin2).
    eapply on_unchanged; [exact Hl2 |]. by apply warnOnce_seen.
Qed.

End process.

Lemma warnOnce_once_witness :
  let between :=
    [(Sample.terminal, 1%nat, CallWarnOnce "deprecated" None);
     (Sample.terminal, 0%nat, CallInfo "ready" None)] in
  ∃ (w1 w2 : World) (effects2 : list Effect),
    on 0%nat (Logger.warnOnce (H := colors.plain) Sample.terminal "deprecated" None)
      Sample.two = Some (tt, w1, [Console console.warn ["deprecated"]]) ∧
    run (H := colors.plain) between w1 = Some (w2, effects2) ∧
    on 0%nat (Logger.warnOnce (H := colors.plain) Sample.terminal "deprecated" None)
      w2 = Some (tt, w2, []).
Proof.
  cbv zeta.
  destruct (warnOnce_once (H := colors.plain) Sample.terminal Sample.terminal
              0%nat "deprecated" None None Sample.two
              (Sample.loggerAt (Level LogType.info) true) eq_refl)
    as [_ (w1 & effects1 & Hon & Hlater)].
  vm_compute in Hon. injection Hon as <- <-.
  eexists _, _, _. split; [reflexivity |].
  split; [reflexivity |].
  eapply (Hlater [(Sample.terminal, 1%nat, CallWarnOnce "deprecated" None);
                   (Sample.terminal, 0%nat, CallInfo "ready" None)]).
  reflexivity.
Defined.

Section shared.
Context `{colors.Formatter}.


End shared.



(** ** The URL reporter *)

Section reporter_facts.
Context `{colors.Formatter}.

Lemma forEach_two {S} (info : string → Act S unit) (a b : string) (s : S) :
  (info a;; info b) s = forEach info [a; b] s.
Proof.
  cbv [forEach mbind act_bind mret act_ret].
  destruct (info a s) as [[[] s1] e1]. destruct (info b s1) as [[[] s2] e2].
  by rewrite app_nil_r.
Qed.

Lemma forEach_one {S} (info : string → Act S unit) (a : string) (s : S) :
  (info a;; mret tt) s = forEach info [a] s.
Proof. done. Qed.

Lemma recorded_forEach (lines : list string) :
  recorded (λ info, forEach info lines) = lines.
Proof.
  unfold recorded. change lines with ([] ++ lines) at 2.
  generalize (@nil string) as seen.
  induction lines as [| msg rest IH]; intros seen.
  - by rewrite app_nil_r.
  - cbn [forEach]. cbv [mbind act_bind record modify stateOf] in *.
    specialize (IH (seen ++ [msg])).
    destruct (forEach _ rest (seen ++ [msg])) as [[[] s2] e2].
    cbn [fst snd] in *. by rewrite IH, <- app_assoc.
Qed.

(** In the loopback branch the calls of [info] are these. *)
Lemma printServerUrls_loopback {S} (node : Node) (display protocol base : string)
    (port : Z) (info : string → Act S unit) (s : S) :
  printServerUrls node {| host := Some "127.0.0.1"; name := display |}
    protocol port base info s =
  forEach info
    (("  > Local: " +:+
      colors.cyan (protocol +:+ "://" +:+ display +:+ ":" +:+
                   colors.bold (JsString.ofNumber port) +:+ base)) ::
     (if bool_decide (display = "127.0.0.1") then []
      else ["  > Network: " +:+ colors.dim "use `--host` to expose"])) s.
Proof.
  unfold printServerUrls. cbn [host name].
  rewrite bool_decide_eq_true_2 by done.
  destruct (decide (display = "127.0.0.1")) as [Heq | Hne].
  - rewrite (bool_decide_eq_false_2 (display ≠ _)) by (by intros ?).
    by rewrite (bool_decide_eq_true_2 (display = _)).
  - rewrite (bool_decide_eq_true_2 (display ≠ _)) by done.
    rewrite (bool_decide_eq_false_2 (display = _)) by done.
    apply forEach_two.
Qed.

(** C7: when the bind host is 127.0.0.1 the reporter hands to [info]
    exactly one "Local:" line, whose URL host is the display name, and
    after it exactly one "Network:" advisory line when the display name
    is not 127.0.0.1, and none when it is; whatever [info] is, these are
    its calls.  For display name localhost, http, port 5173 and base /
    the lines are the Local URL http://localhost:5173/ and the advisory
    line. *)
Theorem loopback_lines (node : Node) (display protocol base : string) (port : Z) :
  let hostname := {| host := Some "127.0.0.1"; name := display |} in
  let lines := recorded (printServerUrls node hostname protocol port base) in
  let network := if bool_decide (display = "127.0.0.1") then 0%nat else 1%nat in
  lines =
    ("  > Local: " +:+
     colors.cyan (protocol +:+ "://" +:+ display +:+ ":" +:+
                  colors.bold (JsString.ofNumber port) +:+ base)) ::
    (if bool_decide (display = "127.0.0.1") then []
     else ["  > Network: " +:+ colors.dim "use `--host` to expose"]) ∧
  length (List.filter isLocalLine lines) = 1%nat ∧
  length (List.filter isNetworkLine lines) = network ∧
  length lines = (1 + network)%nat ∧
  (∀ (S : Type) (info : string → Act S unit) (s : S),
     printServerUrls node hostname protocol port base info s = forEach info lines s) ∧
  recorded (printServerUrls (H := colors.plain) node
              {| host := Some "127.0.0.1"; name := "localhost" |} "http" 5173 "/") =
    ["  > Local: http://localhost:5173/"; "  > Network: use `--host` to expose"].
Proof.
  cbv zeta.
  assert (Hlines :
    recorded (printServerUrls node {| host := Some "127.0.0.1"; name := display |}
                protocol port base) =
    ("  > Local: " +:+
     colors.cyan (protocol +:+ "://" +:+ display +:+ ":" +:+
                  colors.bold (JsString.ofNumber port) +:+ base)) ::
    (if bool_decide (display = "127.0.0.1") then []
     else ["  > Network: " +:+ colors.dim "use `--host` to expose"])).
  { unfold recorded. rewrite printServerUrls_loopback. apply recorded_forEach. }
  rewrite Hlines.
  split; [done |].
  split; [by destruct (bool_decide (display = "127.0.0.1")) |].
  split; [by destruct (bool_decide (display = "127.0.0.1")) |].
  split; [by destruct (bool_decide (display = "127.0.0.1")) |].
  split; [intros S info s; apply printServerUrls_loopback |].
  reflexivity.
Qed.

Lemma keeps_IPv6 (hostname : Hostname) (detail : NetworkInterfaceInfo) :
  family detail = IPv6 →
  keeps hostname detail = true →
  ∃ h, host hostname = Some h ∧
       JsString.includes h (address detail) = true ∧ h ≠ "::".
Proof.
  intros Hfam. unfold keeps. rewrite Hfam.
  destruct (negb (JsString.truthy (address detail))); [done |].
  destruct (host hostname) as [h |]; [| done].
  rewrite !andb_true_iff, negb_true_iff, String.eqb_neq.
  intros [[_ Hinc] Hany]. eauto.
Qed.

(** C8: outside the loopback branch the reporter hands to [info] one
    line for each interface detail that passes its filter, in order.  A
    detail of family IPv6 passes only if the configured host is set,
    contains the address of the detail as a substring, and is not the
    literal [::].  So with the host unset every detail that is shown is
    IPv4, whatever the interfaces are: on the sample terminal, whose
    interfaces carry ::1 and fe80::1, only the two IPv4 lines come
    out, while with host ::1 the line of ::1 does. *)
Theorem ipv6_only_for_matching_host (node : Node) (hostname : Hostname)
    (protocol base : string) (port : Z) :
  (∀ (S : Type) (info : string → Act S unit) (s : S),
     host hostname ≠ Some "127.0.0.1" →
     printServerUrls node hostname protocol port base info s =
     forEach info (List.map (line hostname protocol port base) (shown node hostname)) s) ∧
  (∀ detail : NetworkInterfaceInfo,
     detail ∈ shown node hostname →
     family detail = IPv6 →
     ∃ h, host hostname = Some h ∧
          JsString.includes h (address detail) = true ∧ h ≠ "::") ∧
  (host hostname = None →
     Forall (λ detail, family detail = IPv4) (shown node hostname)) ∧
  recorded (printServerUrls (H := colors.plain) Sample.terminal
              {| host := None; name := "localhost" |} "http" 3000 "/") =
    ["  > Local:    http://localhost:3000/";
     "  > Network:  http://192.168.1.5:3000/"] ∧
  recorded (printServerUrls (H := colors.plain) Sample.terminal
              {| host := Some "::1"; name := "::1" |} "http" 3000 "/") =
    ["  > Local:    http://[::1]:3000/"].
Proof.
  split; [| split; [| split; [| split]]].
  - intros S info s Hhost. unfold printServerUrls, shown.
    by rewrite bool_decide_eq_false_2.
  - intros detail Hin Hfam. unfold shown in Hin.
    apply list_elem_of_In, filter_In in Hin as [_ Hkeeps].
    by apply keeps_IPv6.
  - intros Hnone. apply Forall_forall. intros detail Hin.
    unfold shown in Hin. apply list_elem_of_In, filter_In in Hin as [_ Hkeeps].
    destruct (family detail) eqn:Hfam; [done |].
    destruct (keeps_IPv6 hostname detail Hfam Hkeeps) as (h & Hh & _).
    congruence.
  - reflexivity.
  - reflexivity.
Qed.

(** C10: [printCommonServerUrls] does nothing at all, and so never calls
    the [info] of the logger, when [server.address()] is [null] or the
    name of a pipe, and more generally whenever the guard
    [isAddressInfo] rejects it; a reporter that hands any line to
    [info] was given an address object whose [address] is not empty. *)
Theorem no_urls_without_address_info
    (resolveHostname : option (string + bool) → Hostname) (node : Node)
    (options : CommonServerOptions) (S : Type) (config : ResolvedConfig S)
    (path : string) (s : S) :
  printCommonServerUrls resolveHostname node {| server_address := Null |}
    options config s = (tt, s, []) ∧
  printCommonServerUrls resolveHostname node {| server_address := Pipe path |}
    options config s = (tt, s, []) ∧
  (∀ server : Server,
     isAddressInfo (server_address server) = None →
     printCommonServerUrls resolveHostname node server options config s = (tt, s, [])) ∧
  (∀ (server : Server) (base : string),
     recorded (λ info, printCommonServerUrls resolveHostname node server options
                         {| config_server := options; config_base := base;
                            config_logger_info := info |}) ≠ [] →
     ∃ info : AddressInfo.t,
       server_address server = Bound info ∧ AddressInfo.address info ≠ "").
Proof.
  split; [done |]. split; [done |]. split.
  - intros server Hguard. unfold printCommonServerUrls. by rewrite Hguard.
  - intros server base Hlines. destruct server as [[info | pipe |]];
      [| by destruct Hlines | by destruct Hlines].
    exists info. split; [done |]. intros Hempty. apply Hlines.
    unfold recorded, printCommonServerUrls, isAddressInfo, JsString.truthy.
    cbn [server_address]. by rewrite Hempty.
Qed.

End reporter_facts.

(** * Further properties *)

(** ** Clearing the screen *)

Section clearing_facts.
Context `{colors.Formatter}.

Lemma append_length (a b : string) :
  String.length (a +:+ b) = (String.length a + String.length b)%nat.
Proof.
  induction a as [| c a IH]; [done |].
  change (String c a +:+ b) with (String c (a +:+ b)).
  cbn [String.length]. by rewrite IH.
Qed.

Lemma repeat_length (s : string) (n : nat) :
  String.length (JsString.repeat s n) = (n * String.length s)%nat.
Proof.
  induction n as [| k IH]; [done |].
  cbn [JsString.repeat]. rewrite append_length, IH. lia.
Qed.

(** X1: the module's [clearScreen()] pads with [rows - 2] newlines, none
    when the terminal has two rows or fewer, then moves the cursor to the
    origin and erases the screen below it, in this order. *)
Theorem clearScreen_padding (node : Node) :
  ∃ blank : string,
    clearing node = [Console console.log [blank]; cursorTo 0 0; clearScreenDown] ∧
    blank = JsString.repeat JsString.newline (Z.to_nat (stdout_rows node - 2)) ∧
    String.length blank = Z.to_nat (Z.max 0 (stdout_rows node - 2)) ∧
    (if stdout_rows node <=? 2 then blank = "" else blank ≠ "").
Proof.
  unfold clearing, clearScreen, emit, effectsOf. cbn [snd].
  eexists. split; [reflexivity |].
  destruct (Z.ltb_spec 0 (stdout_rows node - 2)) as [Hpos | Hneg].
  - split; [done |]. split; [rewrite repeat_length; cbn; lia |].
    destruct (Z.leb_spec (stdout_rows node) 2); [lia |].
    destruct (Z.to_nat (stdout_rows node - 2)) eqn:Hn; [lia | done].
  - replace (Z.to_nat (stdout_rows node - 2)) with 0%nat by lia.
    split; [done |]. split; [cbn; lia |].
    destruct (Z.leb_spec (stdout_rows node) 2); [done | lia].
Qed.

Lemma clearScreen_method (node : Node) (type : LogType) (s : St) :
  Logger.clearScreen node type s =
  (tt, s,
   if (thresh (self s) >=? LogLevels (Level type)) && canClearScreen (self s)
   then clearing node else []).
Proof.
  cbv [Logger.clearScreen Logger.clear clearing clearScreen mbind act_bind gets
       emit mret act_ret compose effectsOf].
  destruct (thresh (self s) >=? LogLevels (Level type)); [| done].
  by destruct (canClearScreen (self s)).
Qed.

(** X2: the method [clearScreen(type)] clears the terminal exactly when
    the threshold admits [type] and clearing is permitted, and otherwise
    does nothing; in both cases it leaves the module's variables and the
    logger as they were. *)
Theorem clearScreen_gated (node : Node) (type : LogType) (s : St) :
  let r := Logger.clearScreen node type s in
  stateOf r = s ∧
  (clearsScreen (effectsOf r) =
     (thresh (self s) >=? LogLevels (Level type)) && canClearScreen (self s)) ∧
  (effectsOf r = clearing node ∨ effectsOf r = []).
Proof.
  cbv zeta. rewrite clearScreen_method. cbn [stateOf effectsOf fst snd].
  split; [done |].
  destruct ((thresh (self s) >=? LogLevels (Level type)) && canClearScreen (self s));
    split; auto.
Qed.

End clearing_facts.

(** ** What every call does to the state *)

Section call_facts.
Context `{colors.Formatter}.
Implicit Types (s : St) (node : Node) (type : LogType) (msg : string).
Implicit Types (opts : option LogErrorOptions) (c : Call).

Lemma call_log_vars node type msg opts s :
  vars (stateOf (call node (logCall type msg opts) s)) =
  if (thresh (self s) >=? LogLevels (Level type)) && canClearScreen (self s) then
    if bool_decide ((lastType (vars s), lastMsg (vars s)) = (Some type, Some msg))
    then set_sameCount (sameCount (vars s) + 1) (vars s)
    else {| lastType := Some type; lastMsg := Some msg; sameCount := 0 |}
  else vars s.
Proof.
  destruct (Z.geb_spec (thresh (self s)) (LogLevels (Level type))) as [Hle | Hgt].
  - destruct (canClearScreen (self s)) eqn:Hcan; cbn [andb].
    + case_bool_decide as Hsame.
      * injection Hsame as Ht Hm. by rewrite call_again.
      * by rewrite call_fresh.
    + rewrite call_log, output_plain
        by (rewrite ?flagged_thresh, ?flagged_canClearScreen; done).
      cbn [stateOf fst snd set_self vars]. apply flagged_vars.
  - cbn [andb]. rewrite call_log, output_silent by (rewrite flagged_thresh; lia).
    cbn [stateOf fst snd]. apply flagged_vars.
Qed.

Lemma call_log_effects node type msg opts s :
  effectsOf (call node (logCall type msg opts) s) =
  let text := Logger.format node (prefix (self s)) type msg (default noOptions opts) in
  if thresh (self s) >=? LogLevels (Level type) then
    if canClearScreen (self s) then
      if bool_decide ((lastType (vars s), lastMsg (vars s)) = (Some type, Some msg))
      then clearing node ++
           [Console (Logger.method type)
              [text;
               colors.yellow
                 ("(x" +:+ JsString.ofNumber (sameCount (vars s) + 1 + 1) +:+ ")")]]
      else (if isTrue (options_clear (default noOptions opts))
            then clearing node else []) ++
           [Console (Logger.method type) [text]]
    else [Console (Logger.method type) [text]]
  else [].
Proof.
  cbv zeta.
  destruct (Z.geb_spec (thresh (self s)) (LogLevels (Level type))) as [Hle | Hgt].
  - destruct (canClearScreen (self s)) eqn:Hcan.
    + case_bool_decide as Hsame.
      * injection Hsame as Ht Hm. by rewrite call_again.
      * by rewrite call_fresh.
    + rewrite call_log, output_plain
        by (rewrite ?flagged_thresh, ?flagged_canClearScreen; done).
      cbn [effectsOf snd]. by rewrite flagged_prefix.
  - by rewrite call_log, output_silent by (rewrite flagged_thresh; lia).
Qed.

Lemma warnOnce_run node msg opts s :
  Logger.warnOnce node msg opts s =
  if bool_decide (msg ∈ warnedMessages (self s)) then (tt, s, [])
  else (tt,
        set_self (add_warnedMessages msg) (stateOf (Logger.warn node msg opts s)),
        effectsOf (Logger.warn node msg opts s)).
Proof.
  case_bool_decide as Hin; [by apply warnOnce_seen |].
  rewrite warnOnce_first by done. cbv [mbind act_bind modify stateOf effectsOf].
  destruct (Logger.warn node msg opts s) as [[[] s'] e]. cbn [fst snd].
  by rewrite app_nil_r.
Qed.

Lemma flagged_hasWarned type s :
  hasWarned (self (flagged type s)) =
  bool_decide (type ≠ LogType.info) || hasWarned (self s).
Proof. by destruct type. Qed.

Lemma noted_hasWarned opts (l : LoggerState) : hasWarned (noted opts l) = hasWarned l.
Proof. unfold noted. by destruct (options_error _). Qed.

Lemma noted_loggedErrors opts (l : LoggerState) :
  loggedErrors l ⊆ loggedErrors (noted opts l).
Proof. unfold noted. destruct (options_error _); cbn; set_solver. Qed.

Lemma noted_constants opts (l : LoggerState) : constants (noted opts l) = constants l.
Proof. unfold noted. by destruct (options_error _). Qed.

Lemma flagged_constants type s : constants (self (flagged type s)) = constants (self s).
Proof. by destruct type. Qed.

(** The three ways to look at a call. *)
Lemma call_cases c :
  (∃ type msg opts, c = logCall type msg opts) ∨
  (∃ msg opts, c = CallWarnOnce msg opts) ∨
  (∃ type, c = CallClearScreen type).
Proof.
  destruct c as [msg opts | msg opts | msg opts | msg opts | type].
  - left. by exists LogType.info, msg, opts.
  - left. by exists LogType.warn, msg, opts.
  - right. left. eauto.
  - left. by exists LogType.error, msg, opts.
  - right. right. eauto.
Qed.

Lemma call_warnOnce_state node msg opts s :
  stateOf (call node (CallWarnOnce msg opts) s) =
  if bool_decide (msg ∈ warnedMessages (self s)) then s
  else set_self (add_warnedMessages msg)
         (stateOf (call node (logCall LogType.warn msg opts) s)).
Proof. cbn [call logCall]. rewrite warnOnce_run. by case_bool_decide. Qed.

Lemma call_clearScreen_state node type s :
  stateOf (call node (CallClearScreen type) s) = s.
Proof. cbn [call]. by rewrite clearScreen_method. Qed.

Lemma call_log_constants node type msg opts s :
  constants (self (stateOf (call node (logCall type msg opts) s))) = constants (self s).
Proof.
  rewrite call_log_loggedErrors.
  destruct (_ >=? _); by rewrite ?noted_constants, flagged_constants.
Qed.

Lemma call_constants node c s :
  constants (self (stateOf (call node c s))) = constants (self s).
Proof.
  destruct (call_cases c) as [(type & msg & opts & ->) | [(msg & opts & ->) | (type & ->)]].
  - apply call_log_constants.
  - rewrite call_warnOnce_state. case_bool_decide; [done |].
    apply (call_log_constants node LogType.warn).
  - by rewrite call_clearScreen_state.
Qed.

Lemma call_log_hasWarned node type msg opts s :
  hasWarned (self (stateOf (call node (logCall type msg opts) s))) =
  bool_decide (type ≠ LogType.info) || hasWarned (self s).
Proof.
  rewrite call_log_loggedErrors.
  destruct (_ >=? _); by rewrite ?noted_hasWarned, flagged_hasWarned.
Qed.

Lemma call_hasWarned node c s :
  hasWarned (self s) = true → hasWarned (self (stateOf (call node c s))) = true.
Proof.
  intros Hw.
  destruct (call_cases c) as [(type & msg & opts & ->) | [(msg & opts & ->) | (type & ->)]].
  - rewrite call_log_hasWarned, Hw. apply orb_true_r.
  - rewrite call_warnOnce_state. case_bool_decide; [done |].
    cbn [set_self self add_warnedMessages hasWarned].
    rewrite call_log_hasWarned, Hw. apply orb_true_r.
  - by rewrite call_clearScreen_state.
Qed.

Lemma call_log_loggedErrors_subset node type msg opts s :
  loggedErrors (self s) ⊆ loggedErrors (self (stateOf (call node (logCall type msg opts) s))).
Proof.
  rewrite call_log_loggedErrors.
  destruct (_ >=? _); [etrans; [| apply noted_loggedErrors] |];
    by rewrite flagged_loggedErrors.
Qed.

Lemma call_loggedErrors node c s :
  loggedErrors (self s) ⊆ loggedErrors (self (stateOf (call node c s))).
Proof.
  destruct (call_cases c) as [(type & msg & opts & ->) | [(msg & opts & ->) | (type & ->)]].
  - apply call_log_loggedErrors_subset.
  - rewrite call_warnOnce_state. case_bool_decide; [done |].
    apply (call_log_loggedErrors_subset node LogType.warn).
  - by rewrite call_clearScreen_state.
Qed.

End call_facts.

(** ** What holds along every sequence of calls *)

Section run_facts.
Context `{colors.Formatter}.
Implicit Types (s : St) (node : Node) (w : World) (l : Logger).

(** A relation between the states of a logger that every call respects
    is respected by every sequence of calls, on whatever loggers. *)
Lemma run_related (R : LoggerState → LoggerState → Prop) :
  (∀ st, R st st) →
  (∀ a b c, R a b → R b c → R a c) →
  (∀ node c s, R (self s) (self (stateOf (call node c s)))) →
  ∀ (calls : list (Node * Logger * Call)) w w' effects l st,
    run calls w = Some (w', effects) →
    heap w !! l = Some st →
    ∃ st', heap w' !! l = Some st' ∧ R st st'.
Proof.
  intros Hrefl Htrans Hstep calls.
  induction calls as [| [[node l0] c] rest IH]; intros w w' effects l st Hrun Hl.
  - injection Hrun as <- _. eauto.
  - cbn [run] in Hrun.
    destruct (on l0 (call node c) w) as [[[[] w1] e1] |] eqn:Hon; [| done].
    destruct (run rest w1) as [[w2 e2] |] eqn:Hrest; [| done].
    injection Hrun as <- _.
    destruct (decide (l0 = l)) as [-> | Hne].
    + pose proof (on_same _ _ _ _ _ _ _ Hl Hon) as Hl1.
      destruct (IH _ _ _ _ _ Hrest Hl1) as (st' & Hl' & HR).
      exists st'. split; [done |].
      exact (Htrans _ _ _ (Hstep node c {| vars := module_vars w; self := st |}) HR).
    + eapply IH; [exact Hrest |]. by rewrite (on_other _ _ _ _ _ _ _ Hne Hon).
Qed.

Lemma run_length (calls : list (Node * Logger * Call)) : ∀ w w' effects,
  run calls w = Some (w', effects) → length (heap w') = length (heap w).
Proof.
  induction calls as [| [[node l0] c] rest IH]; intros w w' effects Hrun.
  - by injection Hrun as <- _.
  - cbn [run] in Hrun.
    destruct (on l0 (call node c) w) as [[[[] w1] e1] |] eqn:Hon; [| done].
    destruct (run rest w1) as [[w2 e2] |] eqn:Hrest; [| done].
    injection Hrun as <- _. rewrite (IH _ _ _ Hrest).
    unfold on in Hon. destruct (heap w !! l0) as [state |]; [| done].
    destruct (call node c _) as [[u s] e]. injection Hon as _ <- _.
    cbn [heap]. apply length_insert.
Qed.

(** X3: [hasWarned] is sticky: once it is true on a logger, no sequence
    of calls, on that logger or on any other, makes it false again. *)
Theorem hasWarned_sticky (calls : list (Node * Logger * Call)) (w w' : World)
    (effects : list Effect) (l : Logger) (st : LoggerState) :
  run calls w = Some (w', effects) →
  heap w !! l = Some st →
  hasWarned st = true →
  hasWarned <$> heap w' !! l = Some true.
Proof.
  intros Hrun Hl Hw.
  destruct (run_related (λ a b, hasWarned a = true → hasWarned b = true))
    with (calls := calls) (w := w) (w' := w') (effects := effects) (l := l) (st := st)
    as (st' & -> & HR); auto using call_hasWarned.
  cbn. by rewrite HR.
Qed.

(** X4: [warn] and [error] set [hasWarned] whether or not the threshold
    lets them print, at level [silent] too; [info] and the method
    [clearScreen] leave it as it is. *)
Theorem hasWarned_set_unconditionally (node : Node) (type : LogType)
    (msg : string) (opts : option LogErrorOptions) (s : St) :
  hasWarned (self (stateOf (call node (logCall type msg opts) s))) =
    match type with
    | LogType.info => hasWarned (self s)
    | _ => true
    end ∧
  hasWarned (self (stateOf (call node (CallClearScreen type) s))) = hasWarned (self s).
Proof.
  rewrite call_log_hasWarned, call_clearScreen_state. by destruct type.
Qed.

(** X6: what a logger is built with stays: no sequence of calls changes
    the prefix, the threshold or the permission to clear of any logger,
    and none adds or removes a logger. *)
Theorem constants_fixed (calls : list (Node * Logger * Call)) (w w' : World)
    (effects : list Effect) (l : Logger) (st : LoggerState) :
  run calls w = Some (w', effects) →
  heap w !! l = Some st →
  length (heap w') = length (heap w) ∧
  ∃ st' : LoggerState,
    heap w' !! l = Some st' ∧
    prefix st' = prefix st ∧ thresh st' = thresh st ∧
    canClearScreen st' = canClearScreen st.
Proof.
  intros Hrun Hl. split; [by eapply run_length |].
  destruct (run_related (λ a b, constants b = constants a))
    with (calls := calls) (w := w) (w' := w') (effects := effects) (l := l) (st := st)
    as (st' & Hl' & HR); auto using call_constants.
  - intros a b c Hab Hbc. by rewrite Hbc.
  - exists st'. split; [done |]. unfold constants in HR. by injection HR.
Qed.

(** X7: an error that a logger has recorded stays recorded: once
    [hasErrorLogged(e)] is true, it is true after every sequence of
    calls. *)
Theorem hasErrorLogged_stays (calls : list (Node * Logger * Call)) (w w' : World)
    (effects : list Effect) (l : Logger) (st : LoggerState) (e : Error) :
  run calls w = Some (w', effects) →
  heap w !! l = Some st →
  Logger.hasErrorLogged e st = true →
  Logger.hasErrorLogged e <$> heap w' !! l = Some true.
Proof.
  intros Hrun Hl He.
  destruct (run_related (λ a b, loggedErrors a ⊆ loggedErrors b))
    with (calls := calls) (w := w) (w' := w') (effects := effects) (l := l) (st := st)
    as (st' & -> & HR); auto using call_loggedErrors.
  - intros a b c Hab Hbc. set_solver.
  - cbn. f_equal. unfold Logger.hasErrorLogged in *.
    apply bool_decide_eq_true in He. apply bool_decide_eq_true. set_solver.
Qed.

Lemma call_log_consistent node (type : LogType) (msg : string)
    (opts : option LogErrorOptions) s :
  consistent (vars s) →
  consistent (vars (stateOf (call node (logCall type msg opts) s))).
Proof.
  intros [Hpos Hpair]. rewrite call_log_vars.
  destruct (_ && _); [| done].
  case_bool_decide; unfold consistent; cbn; [split; [lia | done] | done].
Qed.

Lemma call_consistent node (c : Call) s :
  consistent (vars s) → consistent (vars (stateOf (call node c s))).
Proof.
  intros Hs.
  destruct (call_cases c) as [(type & msg & opts & ->) | [(msg & opts & ->) | (type & ->)]].
  - by apply call_log_consistent.
  - rewrite call_warnOnce_state. case_bool_decide; [done |].
    cbn [set_self vars]. by apply call_log_consistent.
  - by rewrite call_clearScreen_state.
Qed.

(** X10: the module's variables stay consistent: from the start of the
    process, and after every sequence of calls on whatever loggers,
    [sameCount] is not negative, and [lastType] and [lastMsg] are either
    both unset or both set. *)
Theorem vars_consistent (calls : list (Node * Logger * Call)) (w w' : World)
    (effects : list Effect) :
  consistent initialVars ∧
  (consistent (module_vars w) →
   run calls w = Some (w', effects) →
   consistent (module_vars w')).
Proof.
  split; [by split |].
  revert w w' effects.
  induction calls as [| [[node l0] c] rest IH]; intros w w' effects Hw Hrun.
  - by injection Hrun as <- _.
  - cbn [run] in Hrun.
    destruct (on l0 (call node c) w) as [[[[] w1] e1] |] eqn:Hon; [| done].
    destruct (run rest w1) as [[w2 e2] |] eqn:Hrest; [| done].
    injection Hrun as <- _. eapply IH; [| exact Hrest].
    unfold on in Hon. destruct (heap w !! l0) as [state |]; [| done].
    pose proof (call_consistent node c {| vars := module_vars w; self := state |} Hw) as Hc.
    destruct (call node c _) as [[u s] e]. injection Hon as _ <- _. exact Hc.
Qed.

End run_facts.

Lemma hasWarned_sticky_witness :
  let w := {| module_vars := initialVars;
              heap := [set_hasWarned true (Sample.loggerAt (Level LogType.info) true);
                       Sample.loggerAt (Level LogType.info) true] |} in
  ∃ (w' : World) (effects : list Effect),
    run (H := colors.plain)
      [(Sample.terminal, 1%nat, CallInfo "ready" None);
       (Sample.terminal, 0%nat, CallInfo "ready" None)] w = Some (w', effects) ∧
    hasWarned <$> heap w' !! 0%nat = Some true.
Proof.
  cbv zeta.
  destruct (run _ _) as [[w' effects] |] eqn:Hrun; [| by vm_compute in Hrun].
  exists w', effects. split; [reflexivity |].
  eapply (hasWarned_sticky (H := colors.plain)); [exact Hrun | reflexivity | reflexivity].
Defined.

Lemma constants_fixed_witness :
  ∃ (w' : World) (effects : list Effect) (st' : LoggerState),
    run (H := colors.plain)
      [(Sample.terminal, 0%nat, CallError "failed" (Some (Sample.withError Sample.boom)));
       (Sample.terminal, 1%nat, CallWarnOnce "deprecated" None)] Sample.two =
      Some (w', effects) ∧
    length (heap w') = 2%nat ∧
    heap w' !! 1%nat = Some st' ∧
    prefix st' = "[vite]" ∧ thresh st' = 3 ∧ canClearScreen st' = true.
Proof.
  destruct (run _ _) as [[w' effects] |] eqn:Hrun; [| by vm_compute in Hrun].
  destruct (constants_fixed (H := colors.plain) _ _ _ _ 1%nat
              (Sample.loggerAt (Level LogType.info) true) Hrun eq_refl)
    as (Hlen & st' & Hl & Hp & Ht & Hc).
  exists w', effects, st'. repeat split; assumption.
Defined.

Lemma hasErrorLogged_stays_witness :
  let w := {| module_vars := initialVars;
              heap := [add_loggedErrors Sample.boom (Sample.loggerAt (Level LogType.info) true);
                       Sample.loggerAt (Level LogType.info) true] |} in
  ∃ (w' : World) (effects : list Effect),
    run (H := colors.plain)
      [(Sample.terminal, 0%nat, CallError "again" (Some (Sample.withError Sample.boom')));
       (Sample.terminal, 1%nat, CallInfo "ready" None)] w = Some (w', effects) ∧
    Logger.hasErrorLogged Sample.boom <$> heap w' !! 0%nat = Some true.
Proof.
  cbv zeta.
  destruct (run _ _) as [[w' effects] |] eqn:Hrun; [| by vm_compute in Hrun].
  exists w', effects. split; [reflexivity |].
  eapply (hasErrorLogged_stays (H := colors.plain)); [exact Hrun | reflexivity | reflexivity].
Defined.

(** ** More on the methods *)

Section more_methods.
Context `{colors.Formatter}.
Implicit Types (s : St) (node : Node) (type : LogType) (msg : string).
Implicit Types (opts : option LogErrorOptions).

(** X5: a first [warnOnce(msg)] that the threshold suppresses prints
    nothing, and yet it sets [hasWarned] and puts [msg] into
    [warnedMessages]; the module's variables stay as they were. *)
Theorem warnOnce_marks_when_suppressed node msg opts s :
  msg ∉ warnedMessages (self s) →
  thresh (self s) < LogLevels (Level LogType.warn) →
  let r := Logger.warnOnce node msg opts s in
  effectsOf r = [] ∧
  hasWarned (self (stateOf r)) = true ∧
  warnedMessages (self (stateOf r)) = {[msg]} ∪ warnedMessages (self s) ∧
  loggedErrors (self (stateOf r)) = loggedErrors (self s) ∧
  vars (stateOf r) = vars s.
Proof.
  intros Hout Hlt. cbv zeta. rewrite warnOnce_run, bool_decide_eq_false_2 by done.
  change (Logger.warn node msg opts s)
    with (call node (logCall LogType.warn msg opts) s).
  cbn [stateOf effectsOf fst snd set_self self vars add_warnedMessages
       hasWarned warnedMessages loggedErrors].
  pose proof (call_log_effects node LogType.warn msg opts s) as He.
  pose proof (call_log_vars node LogType.warn msg opts s) as Hv.
  pose proof (call_log_hasWarned node LogType.warn msg opts s) as Hw.
  pose proof (call_log_warnedMessages node LogType.warn msg opts s) as Hm.
  pose proof (call_log_loggedErrors node LogType.warn msg opts s) as Hl.
  cbv zeta in He.
  destruct (Z.geb_spec (thresh (self s)) (LogLevels (Level LogType.warn))); [lia |].
  cbn [andb] in Hv. unfold stateOf, effectsOf in *.
  rewrite He, Hv, Hw, Hm, Hl. done.
Qed.

(** X9: a logger without the permission to clear never touches the
    dedup state and never looks at it: whatever the method, the module's
    variables are after the call what they were before, and the effects
    and the logger's own state are the same whatever those variables
    hold. *)
Theorem plain_logger_ignores_vars node (c : Call) (l : LoggerState)
    (m m' : ModuleVars) :
  canClearScreen l = false →
  let r := call node c {| vars := m; self := l |} in
  let r' := call node c {| vars := m'; self := l |} in
  vars (stateOf r) = m ∧
  effectsOf r' = effectsOf r ∧
  self (stateOf r') = self (stateOf r).
Proof.
  intros Hcan. cbv zeta.
  assert (Hlog : ∀ type msg opts (v v' : ModuleVars),
    vars (stateOf (call node (logCall type msg opts) {| vars := v; self := l |})) = v ∧
    effectsOf (call node (logCall type msg opts) {| vars := v'; self := l |}) =
      effectsOf (call node (logCall type msg opts) {| vars := v; self := l |}) ∧
    self (stateOf (call node (logCall type msg opts) {| vars := v'; self := l |})) =
      self (stateOf (call node (logCall type msg opts) {| vars := v; self := l |}))).
  { intros type msg opts v v'.
    rewrite call_log_vars, !call_log_effects, !call_log_loggedErrors.
    cbn [self vars]. rewrite Hcan, andb_false_r. by destruct type. }
  destruct (call_cases c) as [(type & msg & opts & ->) | [(msg & opts & ->) | (type & ->)]].
  - apply Hlog.
  - destruct (Hlog LogType.warn msg opts m m') as (Hv & He & Hs).
    cbn [call]. rewrite !warnOnce_run. cbn [self].
    change (Logger.warn node msg opts ?x)
      with (call node (logCall LogType.warn msg opts) x).
    case_bool_decide; [done |].
    cbn [stateOf effectsOf fst snd set_self vars self].
    unfold stateOf, effectsOf in *. by rewrite Hv, He, Hs.
  - cbn [call]. by rewrite !clearScreen_method.
Qed.

Lemma clearsScreen_clearing node : clearsScreen (clearing node) = true.
Proof. done. Qed.

Lemma clearsScreen_app (a b : list Effect) :
  clearsScreen (a ++ b) = clearsScreen a || clearsScreen b.
Proof. apply existsb_app. Qed.

(** X11: a log call erases the screen exactly when it is accepted,
    clearing is permitted, and either it repeats the last [(type, msg)]
    or its options ask to clear: a repeat clears the screen whether the
    options ask for it or not, and a suppressed call never does. *)
Theorem log_call_clears_iff node type msg opts s :
  clearsScreen (effectsOf (call node (logCall type msg opts) s)) =
  (thresh (self s) >=? LogLevels (Level type)) && canClearScreen (self s) &&
  (bool_decide ((lastType (vars s), lastMsg (vars s)) = (Some type, Some msg)) ||
   isTrue (options_clear (default noOptions opts))).
Proof.
  rewrite call_log_effects. cbv zeta.
  destruct (thresh (self s) >=? LogLevels (Level type)); [| done].
  destruct (canClearScreen (self s)); [| done]. cbn [andb].
  case_bool_decide.
  - by rewrite clearsScreen_app, clearsScreen_clearing.
  - rewrite clearsScreen_app. cbn [orb].
    destruct (isTrue (options_clear (default noOptions opts)));
      [by rewrite clearsScreen_clearing | done].
Qed.

End more_methods.

Lemma warnOnce_marks_when_suppressed_witness :
  let s := Sample.start (Level LogType.error) true in
  let r := Logger.warnOnce (H := colors.plain) Sample.terminal "deprecated" None s in
  effectsOf r = [] ∧
  hasWarned (self (stateOf r)) = true ∧
  warnedMessages (self (stateOf r)) = {["deprecated"]} ∪ ∅ ∧
  loggedErrors (self (stateOf r)) = ∅ ∧
  vars (stateOf r) = initialVars.
Proof.
  cbv zeta.
  apply (warnOnce_marks_when_suppressed (H := colors.plain) Sample.terminal
           "deprecated" None (Sample.start (Level LogType.error) true));
    [set_solver | by vm_compute].
Defined.

Lemma plain_logger_ignores_vars_witness :
  let l := Sample.loggerAt (Level LogType.info) false in
  let m := {| lastType := Some LogType.warn; lastMsg := Some "deprecated";
              sameCount := 1 |} in
  let r := call (H := colors.plain) Sample.piped (CallWarn "deprecated" None)
             {| vars := m; self := l |} in
  let r' := call (H := colors.plain) Sample.piped (CallWarn "deprecated" None)
              {| vars := initialVars; self := l |} in
  vars (stateOf r) = m ∧ effectsOf r' = effectsOf r ∧
  self (stateOf r') = self (stateOf r).
Proof.
  cbv zeta.
  apply (plain_logger_ignores_vars (H := colors.plain) Sample.piped
           (CallWarn "deprecated" None) (Sample.loggerAt (Level LogType.info) false)).
  reflexivity.
Defined.

(** ** Building a logger *)

(** X8: [createLogger] hands back a [customLogger] as it is and builds
    nothing.  Otherwise it builds one new logger under a reference that
    was free, and leaves the module's variables and every logger already
    built as they were; the new logger has recorded no error and no
    warning, has the threshold of the level (of [info] by default) and
    the prefix given (or [[vite]]), and may clear the screen exactly when
    [allowClearScreen] is not false, the output is a terminal and
    [CI] is unset or empty. *)
Theorem createLogger_builds (node : Node) (level : option LogLevel)
    (options : option LoggerOptions) (w : World) :
  let given := default noLoggerOptions options in
  let r := createLogger node level options w in
  match customLogger given with
  | Some custom => r = (custom, w)
  | None =>
      heap w !! r.1 = None ∧
      module_vars r.2 = module_vars w ∧
      (∀ (l : Logger) (st : LoggerState),
         heap w !! l = Some st → heap r.2 !! l = Some st) ∧
      heap r.2 !! r.1 =
        Some {| loggedErrors := ∅;
                prefix := default "[vite]" (options_prefix given);
                thresh := LogLevels (default (Level LogType.info) level);
                canClearScreen :=
                  bool_decide (allowClearScreen given ≠ Some false) &&
                  stdout_isTTY node &&
                  bool_decide (env_CI node = None ∨ env_CI node = Some "");
                warnedMessages := ∅;
                hasWarned := false |}
  end.
Proof.
  cbv zeta. unfold createLogger.
  destruct (customLogger (default noLoggerOptions options)) as [custom |]; [done |].
  cbn [fst snd heap module_vars].
  split; [by apply lookup_ge_None |]. split; [done |]. split.
  - intros l st Hl. by apply lookup_app_l_Some.
  - rewrite lookup_app_r, Nat.sub_diag by done.
    assert (Hallow :
      default true (allowClearScreen (default noLoggerOptions options)) =
      bool_decide (allowClearScreen (default noLoggerOptions options) ≠ Some false)).
    { by destruct (allowClearScreen _) as [[] |]. }
    assert (Hci :
      negb (from_option JsString.truthy false (env_CI node)) =
      bool_decide (env_CI node = None ∨ env_CI node = Some "")).
    { destruct (env_CI node) as [[| c ci] |]; cbn [from_option JsString.truthy
        String.eqb negb]; symmetry.
      - apply bool_decide_eq_true_2. by right.
      - apply bool_decide_eq_false_2. by intros [? | ?].
      - apply bool_decide_eq_true_2. by left. }
    by rewrite Hallow, Hci.
Qed.

(** ** More on the URL reporter *)

Section more_urls.
Context `{colors.Formatter}.

Lemma append_nil_r (s : string) : s +:+ "" = s.
Proof.
  induction s as [| c s IH]; [done |].
  change (String c s +:+ "") with (String c (s +:+ "")). by rewrite IH.
Qed.

Lemma splitFirst_absent (pat s : string) :
  JsString.includes s pat = false → JsString.splitFirst pat s = None.
Proof.
  induction s as [| c s IH]; cbn [JsString.includes JsString.splitFirst];
    intros Hinc; apply orb_false_iff in Hinc as [Hpre Hrest]; rewrite Hpre.
  - done.
  - by rewrite IH.
Qed.

Lemma replace_absent (s pat replacement : string) :
  JsString.includes s pat = false → JsString.replace s pat replacement = s.
Proof. intros Hinc. unfold JsString.replace. by rewrite splitFirst_absent. Qed.

Lemma getSubstitution_noDollar (matched before after template : string) :
  noDollar template = true →
  JsString.getSubstitution matched before after template = template.
Proof.
  induction template as [| c rest IH]; [done |].
  cbn [noDollar]. intros [Hc Hrest]%andb_true_iff.
  apply negb_true_iff in Hc.
  cbn [JsString.getSubstitution]. rewrite Hc. cbn [andb].
  destruct rest as [| d rest']; [done |]. by rewrite IH.
Qed.

Lemma replace_whole (s replacement : string) :
  noDollar replacement = true → JsString.replace s s replacement = replacement.
Proof.
  intros Hno. unfold JsString.replace.
  assert (Hpre : ∀ t, String.prefix t t = true).
  { intros t. induction t as [| c t IH]; [done |]. cbn.
    destruct (ascii_dec c c); [exact IH | done]. }
  assert (Hskip : ∀ t, JsString.skip (String.length t) t = "").
  { intros t. induction t as [| c t IH]; [done | exact IH]. }
  destruct s as [| c s]; cbn [JsString.splitFirst].
  - cbn. by rewrite getSubstitution_noDollar, append_nil_r.
  - rewrite Hpre, Hskip. cbn -[String.append].
    rewrite getSubstitution_noDollar, append_nil_r by done. done.
Qed.

End more_urls.

Section the_lines.
Context `{colors.Formatter}.

Lemma recorded_loopback (node : Node) (display protocol base : string) (port : Z) :
  recorded (printServerUrls node {| host := Some "127.0.0.1"; name := display |}
              protocol port base) =
  ("  > Local: " +:+
   colors.cyan (protocol +:+ "://" +:+ display +:+ ":" +:+
                colors.bold (JsString.ofNumber port) +:+ base)) ::
  (if bool_decide (display = "127.0.0.1") then []
   else ["  > Network: " +:+ colors.dim "use `--host` to expose"]).
Proof. unfold recorded. rewrite printServerUrls_loopback. apply recorded_forEach. Qed.

Lemma recorded_wildcard (node : Node) (hostname : Hostname) (protocol base : string)
    (port : Z) :
  host hostname ≠ Some "127.0.0.1" →
  recorded (printServerUrls node hostname protocol port base) =
  List.map (line hostname protocol port base) (shown node hostname).
Proof.
  intros Hother. unfold recorded, printServerUrls, shown.
  rewrite bool_decide_eq_false_2 by done. apply recorded_forEach.
Qed.

(** Whatever [info] is, the reporter calls it once for each of its
    lines, in order. *)
Lemma printServerUrls_lines {S} (node : Node) (hostname : Hostname)
    (protocol base : string) (port : Z) (info : string → Act S unit) (s : S) :
  printServerUrls node hostname protocol port base info s =
  forEach info (recorded (printServerUrls node hostname protocol port base)) s.
Proof.
  destruct (decide (host hostname = Some "127.0.0.1")) as [Hloop | Hother].
  - destruct hostname as [h display]. cbn [host] in Hloop. subst h.
    by rewrite recorded_loopback, printServerUrls_loopback.
  - rewrite recorded_wildcard by done. unfold printServerUrls, shown.
    by rewrite bool_decide_eq_false_2.
Qed.

Lemma filter_sublist {A} (f : A → bool) (xs : list A) : sublist (List.filter f xs) xs.
Proof.
  induction xs as [| x xs IH]; [done |]. cbn.
  destruct (f x); by constructor.
Qed.

Lemma details_nothing (node : Node) :
  Forall (λ entry, entry.2 = None ∨ entry.2 = Some []) (networkInterfaces node) →
  details node = [].
Proof.
  unfold details. induction 1 as [| [key value] rest [Hv | Hv] _ IH];
    [done | |]; cbn in *; by rewrite Hv, IH.
Qed.

(** X12: outside the loopback branch the reporter gives one line for each
    interface detail it keeps, in the order of the interfaces and of the
    addresses within each: the kept details are a sublist of the
    details, so there are never more lines than details; and when no
    interface has an address (the table is empty, or its entries are
    undefined or empty) [info] is not called at all. *)
Theorem lines_follow_interfaces (node : Node) (hostname : Hostname)
    (protocol base : string) (port : Z) :
  host hostname ≠ Some "127.0.0.1" →
  let lines := recorded (printServerUrls node hostname protocol port base) in
  lines = List.map (line hostname protocol port base) (shown node hostname) ∧
  sublist (shown node hostname) (details node) ∧
  (length lines ≤ length (details node))%nat ∧
  (Forall (λ entry, entry.2 = None ∨ entry.2 = Some []) (networkInterfaces node) →
   lines = []).
Proof.
  intros Hother. cbv zeta. rewrite recorded_wildcard by done.
  pose proof (filter_sublist (keeps hostname) (details node)) as Hsub.
  split; [done |]. split; [exact Hsub |]. split.
  - rewrite length_map. by apply sublist_length.
  - intros Hnone. unfold shown. by rewrite details_nothing.
Qed.

(** X13: with the host unset, or set to one of the "any" addresses
    0.0.0.0 and ::, every IPv4 detail with an address is kept; with the
    host unset or :: these are all the details that are kept. *)
Theorem any_host_shows_every_ipv4 (node : Node) (h : option string)
    (display : string) :
  h = None ∨ h = Some DEFAULT_IPV4_ADDR ∨ h = Some DEFAULT_IPV6_ADDR →
  let hostname := {| host := h; name := display |} in
  (∀ detail : NetworkInterfaceInfo,
     family detail = IPv4 →
     keeps hostname detail = JsString.truthy (address detail)) ∧
  (h ≠ Some DEFAULT_IPV4_ADDR →
   shown node hostname =
   List.filter (λ detail, JsString.truthy (address detail) &&
                          bool_decide (family detail = IPv4)) (details node)).
Proof.
  intros Hany. cbv zeta.
  assert (Hv4 : ∀ detail : NetworkInterfaceInfo,
    family detail = IPv4 →
    keeps {| host := h; name := display |} detail = JsString.truthy (address detail)).
  { intros detail Hfam. unfold keeps. rewrite Hfam. cbn [host].
    destruct (JsString.truthy (address detail)); [| done].
    destruct Hany as [-> | [-> | ->]]; done. }
  split; [exact Hv4 |].
  intros Hnot4. unfold shown. apply filter_ext. intros detail.
  destruct (family detail) eqn:Hfam.
  - rewrite Hv4 by done. by rewrite andb_true_r.
  - rewrite andb_false_r. unfold keeps. rewrite Hfam. cbn [host].
    destruct (negb _); [done |].
    destruct Hany as [-> | [-> | ->]]; [done | done |].
    by rewrite andb_false_r.
Qed.

(** X14: an IPv4 detail whose address contains 127.0.0.1 is kept for
    every host but ::1, so that the local URL is listed; with host ::1
    an IPv4 detail is kept only if its address is a part of the text
    [::1]. *)
Theorem loopback_kept_unless_ipv6_loopback (hostname : Hostname)
    (detail : NetworkInterfaceInfo) :
  family detail = IPv4 →
  (host hostname ≠ Some "::1" →
   JsString.includes (address detail) "127.0.0.1" = true →
   keeps hostname detail = true) ∧
  (host hostname = Some "::1" →
   keeps hostname detail =
   JsString.truthy (address detail) && JsString.includes "::1" (address detail)).
Proof.
  intros Hfam. unfold keeps. rewrite Hfam. split.
  - intros Hhost Hinc.
    assert (Hsome : JsString.truthy (address detail) = true).
    { by destruct (address detail). }
    rewrite Hsome, Hinc. cbn [negb andb].
    destruct (host hostname) as [h |]; [| done].
    assert (String.eqb h "::1" = false) as ->.
    { apply String.eqb_neq. congruence. }
    by rewrite orb_true_r.
  - intros ->. destruct (JsString.truthy (address detail)); [| done].
    cbn [negb andb]. unfold DEFAULT_IPV4_ADDR, DEFAULT_IPV6_ADDR.
    change (String.eqb "::1" "0.0.0.0") with false.
    change (String.eqb "::1" "::") with false.
    change (String.eqb "::1" "::1") with true.
    cbn [negb orb]. by rewrite andb_false_r, orb_false_r.
Qed.

(** X15: the line of an address that does not contain 127.0.0.1 carries
    the address itself as the host of the URL, in brackets when it has a
    colon, under the label Local when it contains ::1 and Network
    otherwise. *)
Theorem line_of_address (hostname : Hostname) (protocol base : string) (port : Z)
    (detail : NetworkInterfaceInfo) :
  JsString.includes (address detail) "127.0.0.1" = false →
  line hostname protocol port base detail =
  "  > " +:+
  (if JsString.includes (address detail) "::1" then "Local:   " else "Network: ") +:+
  " " +:+
  colors.cyan (protocol +:+ "://" +:+ bracketed (address detail) +:+ ":" +:+
               colors.bold (JsString.ofNumber port) +:+ base).
Proof.
  intros Habs. unfold line, bracketed. cbv zeta.
  by rewrite Habs, replace_absent.
Qed.

(** X16: the line of the address 127.0.0.1 is a Local line whose URL
    has the display name in the place of the address (in brackets when
    the name has a colon), for every display name without a [$]. *)
Theorem line_of_loopback (display protocol base : string) (h : option string)
    (port : Z) (fam : Family) :
  noDollar display = true →
  line {| host := h; name := display |} protocol port base
    {| address := "127.0.0.1"; family := fam |} =
  "  > Local:    " +:+
  colors.cyan (protocol +:+ "://" +:+ bracketed display +:+ ":" +:+
               colors.bold (JsString.ofNumber port) +:+ base).
Proof.
  intros Hno. unfold line, bracketed. cbv zeta. cbn [address name].
  by rewrite (replace_whole "127.0.0.1" display Hno).
Qed.

End the_lines.

(** ** The reporter on a logger *)

Section report_on_logger.
Context `{colors.Formatter}.
Variable resolveHostname : option (string + bool) → Hostname.

Lemma forEach_silent {S} (info : string → Act S unit) (lines : list string) (s : S) :
  (∀ msg, info msg s = (tt, s, [])) → forEach info lines s = (tt, s, []).
Proof.
  intros Hinfo. induction lines as [| msg rest IH]; [done |].
  cbn [forEach]. cbv [mbind act_bind]. by rewrite Hinfo, IH.
Qed.

Lemma forEach_printing {S} (info : string → Act S unit) (lines : list string) (s : S)
    (show : string → Effect) :
  (∀ msg, info msg s = (tt, s, [show msg])) →
  forEach info lines s = (tt, s, List.map show lines).
Proof.
  intros Hinfo. induction lines as [| msg rest IH]; [done |].
  cbn [forEach]. cbv [mbind act_bind]. by rewrite Hinfo, IH.
Qed.

Lemma info_plain (node : Node) (msg : string) (s : St) :
  LogLevels (Level LogType.info) ≤ thresh (self s) →
  canClearScreen (self s) = false →
  Logger.info node msg None s = (tt, s, [Console console.log [msg]]).
Proof.
  intros Hle Hcan. unfold Logger.info. rewrite output_plain by done.
  by destruct s.
Qed.

(** The lines that [printCommonServerUrls] reports for a server. *)
Lemma printCommonServerUrls_bound {S} (node : Node) (info : AddressInfo.t)
    (options : CommonServerOptions) (config : ResolvedConfig S) (s : S) :
  AddressInfo.address info ≠ "" →
  printCommonServerUrls resolveHostname node {| server_address := Bound info |}
    options config s =
  forEach (config_logger_info config)
    (recorded (printServerUrls node (resolveHostname (options_host options))
                 (if https options then "https" else "http")
                 (AddressInfo.port info) (config_base config))) s.
Proof.
  intros Haddr. unfold printCommonServerUrls, isAddressInfo, JsString.truthy.
  cbn [server_address].
  assert (String.eqb (AddressInfo.address info) "" = false) as ->
    by by apply String.eqb_neq.
  cbn [negb]. apply printServerUrls_lines.
Qed.

(** X17: the URLs go through [info]: on a logger whose threshold is below
    the rank of [info] (level [warn], [error] or [silent]) the reporter
    prints nothing and changes nothing, whatever the server, the host and
    the interfaces are; so does [printHttpServerUrls]. *)
Theorem urls_need_info_level (node node' : Node) (server : Server)
    (options : CommonServerOptions) (base : string) (s : St) :
  thresh (self s) < LogLevels (Level LogType.info) →
  printCommonServerUrls resolveHostname node server options
    (configOf node' options base) s = (tt, s, []) ∧
  printHttpServerUrls resolveHostname node server
    (configOf node' options base) s = (tt, s, []).
Proof.
  intros Hlt.
  assert (Hcommon :
    printCommonServerUrls resolveHostname node server options
      (configOf node' options base) s = (tt, s, [])).
  { destruct (isAddressInfo (server_address server)) as [info |] eqn:Hguard.
    - destruct server as [[info' | path |]]; cbn in Hguard; [| done | done].
      destruct (JsString.truthy (AddressInfo.address info')) eqn:Htruthy; [| done].
      rewrite printCommonServerUrls_bound.
      + apply forEach_silent. intros msg. cbn [configOf config_logger_info].
        unfold Logger.info. by apply output_silent.
      + intros Hempty. by rewrite Hempty in Htruthy.
    - unfold printCommonServerUrls. by rewrite Hguard. }
  split; [exact Hcommon |]. exact Hcommon.
Qed.

(** X18: on a logger at level [info] that may not clear the screen, the
    reporter of a bound server prints its lines one by one with
    [console.log], in order and unchanged, and leaves the state as it
    was; the lines are those of [printServerUrls] for the resolved host,
    the protocol https when the [https] option is set and http
    otherwise, the port of the bound address and the base of the
    configuration. *)
Theorem urls_printed_line_by_line (node node' : Node) (info : AddressInfo.t)
    (options : CommonServerOptions) (base : string) (s : St) :
  AddressInfo.address info ≠ "" →
  LogLevels (Level LogType.info) ≤ thresh (self s) →
  canClearScreen (self s) = false →
  printCommonServerUrls resolveHostname node {| server_address := Bound info |}
    options (configOf node' options base) s =
  (tt, s,
   List.map (λ msg, Console console.log [msg])
     (recorded (printServerUrls node (resolveHostname (options_host options))
                  (if https options then "https" else "http")
                  (AddressInfo.port info) base))).
Proof.
  intros Haddr Hle Hcan. rewrite printCommonServerUrls_bound by done.
  cbn [configOf config_logger_info config_base].
  apply (forEach_printing _ _ _ (λ msg, Console console.log [msg])).
  intros msg. by apply info_plain.
Qed.

End report_on_logger.

Lemma lines_follow_interfaces_witness :
  let hostname := {| host := Some "192.168.1.5"; name := "192.168.1.5" |} in
  let lines :=
    recorded (printServerUrls (H := colors.plain) Sample.terminal hostname
                "https" 8443 "/app/") in
  lines = ["  > Local:    https://192.168.1.5:8443/app/";
           "  > Network:  https://192.168.1.5:8443/app/"] ∧
  (length lines ≤ length (details Sample.terminal))%nat.
Proof.
  cbv zeta.
  destruct (lines_follow_interfaces (H := colors.plain) Sample.terminal
              {| host := Some "192.168.1.5"; name := "192.168.1.5" |}
              "https" "/app/" 8443) as (Hlines & _ & Hlen & _); [done |].
  split; [rewrite Hlines; reflexivity | exact Hlen].
Defined.

Lemma any_host_shows_every_ipv4_witness :
  shown (H := colors.plain) Sample.terminal {| host := Some "::"; name := "localhost" |} =
  [{| address := "127.0.0.1"; family := IPv4 |};
   {| address := "192.168.1.5"; family := IPv4 |}].
Proof.
  destruct (any_host_shows_every_ipv4 (H := colors.plain) Sample.terminal
              (Some "::") "localhost") as [_ Hshown]; [by right; right |].
  rewrite Hshown by done. reflexivity.
Defined.

Lemma loopback_kept_unless_ipv6_loopback_witness :
  keeps {| host := Some "192.168.1.5"; name := "192.168.1.5" |}
    {| address := "127.0.0.1"; family := IPv4 |} = true ∧
  keeps {| host := Some "::1"; name := "::1" |}
    {| address := "127.0.0.1"; family := IPv4 |} = false.
Proof.
  split.
  - apply (loopback_kept_unless_ipv6_loopback
             {| host := Some "192.168.1.5"; name := "192.168.1.5" |}
             {| address := "127.0.0.1"; family := IPv4 |}); done.
  - destruct (loopback_kept_unless_ipv6_loopback
                {| host := Some "::1"; name := "::1" |}
                {| address := "127.0.0.1"; family := IPv4 |} eq_refl) as [_ Hv6].
    rewrite Hv6 by done. reflexivity.
Defined.

Lemma line_of_address_witness :
  line (H := colors.plain) {| host := Some "::"; name := "localhost" |} "http" 3000 "/"
    {| address := "fe80::1"; family := IPv6 |} =
  "  > Local:    http://[fe80::1]:3000/".
Proof.
  rewrite (line_of_address (H := colors.plain)) by reflexivity. reflexivity.
Defined.

Lemma line_of_loopback_witness :
  line (H := colors.plain) {| host := None; name := "localhost" |} "http" 3000 "/"
    {| address := "127.0.0.1"; family := IPv4 |} =
  "  > Local:    http://localhost:3000/".
Proof.
  rewrite (line_of_loopback (H := colors.plain)) by reflexivity. reflexivity.
Defined.

Lemma urls_need_info_level_witness :
  let s := Sample.start (Level LogType.warn) true in
  printCommonServerUrls (H := colors.plain)
    (resolvesTo {| host := None; name := "localhost" |}) Sample.terminal
    (listening 3000) {| options_host := None; https := false |}
    (configOf (H := colors.plain) Sample.terminal
       {| options_host := None; https := false |} "/") s = (tt, s, []).
Proof.
  cbv zeta.
  apply (urls_need_info_level (H := colors.plain)
           (resolvesTo {| host := None; name := "localhost" |})
           Sample.terminal Sample.terminal (listening 3000)
           {| options_host := None; https := false |} "/"
           (Sample.start (Level LogType.warn) true)).
  by vm_compute.
Defined.

Lemma urls_printed_line_by_line_witness :
  let s := Sample.start (Level LogType.info) false in
  printCommonServerUrls (H := colors.plain)
    (resolvesTo {| host := None; name := "localhost" |}) Sample.terminal
    (listening 3000) {| options_host := None; https := true |}
    (configOf (H := colors.plain) Sample.terminal
       {| options_host := None; https := true |} "/") s =
  (tt, s,
   [Console console.log ["  > Local:    https://localhost:3000/"];
    Console console.log ["  > Network:  https://192.168.1.5:3000/"]]).
Proof.
  cbv zeta. unfold listening.
  rewrite (urls_printed_line_by_line (H := colors.plain)
             (resolvesTo {| host := None; name := "localhost" |})
             Sample.terminal Sample.terminal)
    by (done || by vm_compute).
  reflexivity.
Defined.

Section append_only.
Context `{colors.Formatter}.

(** X19: [warnedMessages] only grows: a message that a logger has
    warned of once is still in its set after every sequence of calls,
    on that logger or on any other. *)
Theorem warnedMessages_append_only (calls : list (Node * Logger * Call))
    (w w' : World) (effects : list Effect) (l : Logger) (st : LoggerState) :
  run calls w = Some (w', effects) →
  heap w !! l = Some st →
  ∃ st' : LoggerState,
    heap w' !! l = Some st' ∧ warnedMessages st ⊆ warnedMessages st'.
Proof.
  intros Hrun Hl.
  apply (run_related (λ a b, warnedMessages a ⊆ warnedMessages b))
    with (calls := calls) (w := w) (effects := effects); auto using call_warnedMessages.
  intros a b c Hab Hbc. set_solver.
Qed.

End append_only.

Lemma warnedMessages_append_only_witness :
  let w := {| module_vars := initialVars;
              heap := [add_warnedMessages "deprecated"
                         (Sample.loggerAt (Level LogType.info) true);
                       Sample.loggerAt (Level LogType.info) true] |} in
  ∃ (w' : World) (effects : list Effect) (st' : LoggerState),
    run (H := colors.plain)
      [(Sample.terminal, 0%nat, CallWarnOnce "slow" None);
       (Sample.terminal, 1%nat, CallWarnOnce "deprecated" None)] w = Some (w', effects) ∧
    heap w' !! 0%nat = Some st' ∧
    "deprecated" ∈ warnedMessages st'.
Proof.
  cbv zeta.
  destruct (run _ _) as [[w' effects] |] eqn:Hrun; [| by vm_compute in Hrun].
  destruct (warnedMessages_append_only (H := colors.plain) _ _ _ _ 0%nat _ Hrun eq_refl)
    as (st' & Hl & Hsub).
  exists w', effects, st'. split; [reflexivity |]. split; [exact Hl |].
  apply Hsub. cbn. set_solver.
Defined.
